(** * WhisperX API: the request handlers of [app/main.py]

    A shallow embedding of the two POST handlers, [transcribe] and
    [transcribe_batch], together with the Python values, exceptions, file
    store and external calls they touch.  The three model stages of
    whisperx and the calls of the operating system are opaque: they are
    fields of a [world] record.  A call answers from the arguments the
    handler passes and from the state outside at the time of the call
    (the file store and everything that has happened so far), with either
    a value or the exception it raises. *)

From Stdlib Require Import ZArith QArith Ascii String List.
From stdpp Require Import base option list strings pretty gmap.

Local Open Scope Z_scope.
Local Open Scope string_scope.

(** ** Python values *)

Module Py.

(** JSON-shaped Python values: what the entries of a segment hold. *)
#[warnings="-register-all"]
Inductive value : Type :=
| VNone
| VBool (b : bool)
| VInt (n : Z)
| VFloat (q : Q)
| VStr (s : string)
| VList (l : list value)
| VDict (d : list (string * value)).

(** A [dict] with string keys, in insertion order. *)
Definition dict : Type := list (string * value).

(** A foreign object the handler only passes around: the decoded audio
    array, the alignment model and its metadata, the diarization pipeline
    and the frame of speaker turns. *)
Inductive object : Type := Obj (id : N).

Definition bytes : Type := list Byte.byte.

(** [type(v).__name__], as it appears in the message of an AttributeError. *)
Definition type_name (v : value) : string :=
  match v with
  | VNone => "NoneType"
  | VBool _ => "bool"
  | VInt _ => "int"
  | VFloat _ => "float"
  | VStr _ => "str"
  | VList _ => "list"
  | VDict _ => "dict"
  end.

(** Exceptions.  Every exception here is an instance of [Exception], the
    class the handler's [except] clauses catch: either the framework's
    [HTTPException], with its status code and detail, or any other class,
    kept by name with its message. *)
Inductive exn : Type :=
| HTTPException (status_code : Z) (detail : string)
| PyErr (cls : string) (msg : string).

(** [Starlette]'s [HTTPException.__str__]: the status code, a colon and
    the detail. *)
Definition HTTPException_str (status_code : Z) (detail : string) : string :=
  pretty status_code +:+ ": " +:+ detail.

(** [str(e)] *)
Definition str (e : exn) : string :=
  match e with
  | HTTPException status_code detail => HTTPException_str status_code detail
  | PyErr _ msg => msg
  end.

Definition KeyError (key : string) : exn :=
  PyErr "KeyError" ("'" +:+ key +:+ "'").

Definition UnboundLocalError (name : string) : exn :=
  PyErr "UnboundLocalError"
    ("cannot access local variable '" +:+ name
       +:+ "' where it is not associated with a value").

Definition AttributeError (v : value) (attr : string) : exn :=
  PyErr "AttributeError"
    ("'" +:+ type_name v +:+ "' object has no attribute '" +:+ attr +:+ "'").

(** [d.get(key, default)] *)
Fixpoint get (d : dict) (key : string) (default : value) : value :=
  match d with
  | [] => default
  | (k, v) :: d' => if String.eqb k key then v else get d' key default
  end.

(** Truth value of a string: [not s] holds exactly for the empty string. *)
Definition truthy (s : string) : bool :=
  match s with
  | EmptyString => false
  | String _ _ => true
  end.

(** Characters removed by [str.strip()] (the ASCII ones; strings are byte
    strings here). *)
Definition isspace (a : ascii) : bool :=
  let n := N_of_ascii a in
  ((9 <=? n) && (n <=? 13) || (28 <=? n) && (n <=? 32))%N.

Fixpoint lstrip (s : string) : string :=
  match s with
  | EmptyString => EmptyString
  | String a s' => if isspace a then lstrip s' else s
  end.

(** [rstrip]: a character is kept when it is not a space or when something
    is kept after it. *)
Fixpoint rstrip (s : string) : string :=
  match s with
  | EmptyString => EmptyString
  | String a s' =>
      match rstrip s' with
      | EmptyString => if isspace a then EmptyString else String a EmptyString
      | r => String a r
      end
  end.

Definition strip (s : string) : string := rstrip (lstrip s).

(** [sep.join(l)] *)
Definition join (sep : string) (l : list string) : string :=
  String.concat sep l.

End Py.

Export Py.

(** ** The data of a request *)

(** A segment is a dict ([start], [end], [text], later [words] and
    [speaker]); the handler reads its [text] only. *)
Definition segment_list : Type := list dict.

(** The dict a whisperx stage returns, by the keys the handler looks up.
    A key that is absent is [None]. *)
Record ResultDict : Type := {
  r_segments : option segment_list;
  r_word_segments : option segment_list;
  r_language : option string;
  r_text : option string
}.

(** [response_data], the content of the JSON response.  [text],
    [segments] and [language] are set when it is built, the other two keys
    only by the stage that fills them. *)
Record Response : Type := JSONResponse {
  text : string;
  segments : segment_list;
  language : string;
  word_segments : option segment_list;
  diarization : option segment_list
}.

(** The upload: the client's file name, and what [await file.read()]
    gives. *)
Record UploadFile : Type := {
  filename : option string;
  read : exn + bytes
}.

(** ** The file store *)

(** Components of a path, split at every slash. *)
Fixpoint split_slash (cur : string) (s : string) : list string :=
  match s with
  | EmptyString => [String.rev cur]
  | String a s' =>
      if Ascii.eqb a "/"%char then String.rev cur :: split_slash "" s'
      else split_slash (String a cur) s'
  end.

(** Resolution of an absolute path by the file system: empty components
    and [.] are skipped, [..] leaves the directory reached so far (and
    stays at the root there).  The stack holds the directory reached,
    innermost first. *)
Fixpoint walk (stack : list string) (comps : list string) : list string :=
  match comps with
  | [] => List.rev stack
  | c :: comps' =>
      if String.eqb c "" || String.eqb c "." then walk stack comps'
      else if String.eqb c ".." then walk (List.tl stack) comps'
      else walk (c :: stack) comps'
  end.

Definition resolve (path : string) : list string :=
  walk [] (split_slash "" path).

(** A location is below [/tmp] when its first component is [tmp]. *)
Definition under_tmp (loc : list string) : bool :=
  match loc with
  | c :: _ :: _ => String.eqb c "tmp"
  | _ => false
  end.

(** What the handler does that can be seen from outside, in order. *)
Inductive event : Type :=
| Print (line : string)
| Open (path : string)
| Read
| Write (path : string) (data : bytes)
| LoadAudio (path : string)
| ModelTranscribe (audio : object) (language : option string)
| LoadAlignModel (language_code : string)
| Align (segs : segment_list)
| GcCollect
| EmptyCache
| NewDiarizationPipeline
| DiarizeModel (audio : object)
| AssignWordSpeakers (transcript : ResultDict)
| Remove (path : string).

(** The state outside the handler: the store, which holds regular files
    by the location their path resolves to (no links), and the trace of
    events, oldest first. *)
Record sys : Type := {
  fs : gmap (list string) bytes;
  trace : list event
}.

(** ** External calls *)

(** The process configuration and everything the handler calls but does
    not define.  The first argument of a call is the state outside when
    the call is made, its own event being the last of the trace: what a
    call does may depend on what the store holds and on every earlier
    call, of this request or of another.  A call returns [inr v] or
    raises, [inl e]; the operating system calls give the error they fail
    with, if any. *)
Record world : Type := {
  HF_TOKEN : option string;
  DEVICE : string;
  os_open : sys -> string -> option exn;
  os_write : sys -> string -> bytes -> option exn;
  os_remove : sys -> string -> option exn;
  load_audio : sys -> string -> option bytes -> exn + object;
  model_transcribe : sys -> object -> Z -> option string -> exn + ResultDict;
  load_align_model : sys -> string -> string -> exn + (object * object);
  align :
    sys -> segment_list -> object -> object -> object -> string
    -> exn + ResultDict;
  empty_cache : sys -> option exn;
  DiarizationPipeline : sys -> option string -> string -> exn + object;
  diarize_model : sys -> object -> object -> exn + object;
  assign_word_speakers : sys -> object -> ResultDict -> exn + ResultDict
}.

Definition BATCH_SIZE : Z := 16.

(** ** Local variables of [transcribe] *)

(** The locals that are read after a [try] block may have been left by an
    exception.  [audio_path] is [None] until it is assigned; the others
    are unbound until assigned. *)
Record frame : Type := Frame {
  audio_path : option string;
  result : option ResultDict;
  response_data : option Response;
  result_aligned : option ResultDict;
  result_diarized : option ResultDict
}.

Definition new_frame : frame :=
  {| audio_path := None; result := None; response_data := None;
     result_aligned := None; result_diarized := None |}.

Record state : Type := State {
  outside : sys;
  locals : frame
}.

(** ** Statements: state and exceptions *)

(** A statement runs from a state to a state and either a value or the
    exception it raises.  The state an exception leaves is kept: what a
    [try] block changed before it raised stays changed. *)
Definition M (A : Type) : Type := state -> state * (exn + A).

Definition ret {A} (a : A) : M A := fun st => (st, inr a).

Definition raise {A} (e : exn) : M A := fun st => (st, inl e).

Definition bind {A B} (m : M A) (k : A -> M B) : M B :=
  fun st =>
    match m st with
    | (st', inr a) => k a st'
    | (st', inl e) => (st', inl e)
    end.

Declare Scope py_scope.
Delimit Scope py_scope with py.
Notation "x <- m ;; k" := (bind m (fun x => k))
  (at level 100, m at next level, right associativity,
   format "'[v' x  <-  m  ;; '/' k ']'") : py_scope.
Notation "m ;;; k" := (bind m (fun _ => k))
  (at level 100, right associativity,
   format "'[v' m  ;;; '/' k ']'") : py_scope.
Local Open Scope py_scope.

(** [try: body except Exception as e: handler e] *)
Definition try_except {A} (body : M A) (handler : exn -> M A) : M A :=
  fun st =>
    match body st with
    | (st', inl e) => handler e st'
    | (st', inr a) => (st', inr a)
    end.

(** [try: body finally: final].  The [finally] block runs on every way
    out of [body]; if it raises, its exception replaces the outcome. *)
Definition try_finally {A} (body : M A) (final : M unit) : M A :=
  fun st =>
    match body st with
    | (st', r) =>
        match final st' with
        | (st'', inr _) => (st'', r)
        | (st'', inl e) => (st'', inl e)
        end
    end.

(** Lift the outcome of an external call. *)
Definition outcome {A} (r : exn + A) : M A :=
  match r with
  | inl e => raise e
  | inr a => ret a
  end.

Definition emit (ev : event) : M unit :=
  fun st =>
    (State {| fs := fs (outside st); trace := trace (outside st) ++ [ev] |}
           (locals st), inr tt).

Definition print (line : string) : M unit := emit (Print line).

(** The state outside, as an external call finds it. *)
Definition get_sys : M sys := fun st => (st, inr (outside st)).

Definition get_fs : M (gmap (list string) bytes) :=
  fun st => (st, inr (fs (outside st))).

Definition put_fs (files : gmap (list string) bytes) : M unit :=
  fun st =>
    (State {| fs := files; trace := trace (outside st) |} (locals st), inr tt).

Definition get_locals : M frame := fun st => (st, inr (locals st)).

Definition put_locals (fr : frame) : M unit :=
  fun st => (State (outside st) fr, inr tt).

(** Reading a local variable that was never assigned. *)
Definition load {A} (name : string) (var : frame -> option A) : M A :=
  fr <- get_locals ;;
  match var fr with
  | Some a => ret a
  | None => raise (UnboundLocalError name)
  end.

Definition store_audio_path (v : string) : M unit :=
  fr <- get_locals ;;
  put_locals (Frame (Some v) (result fr) (response_data fr)
                (result_aligned fr) (result_diarized fr)).

Definition store_result (v : ResultDict) : M unit :=
  fr <- get_locals ;;
  put_locals (Frame (audio_path fr) (Some v) (response_data fr)
                (result_aligned fr) (result_diarized fr)).

Definition store_response_data (v : Response) : M unit :=
  fr <- get_locals ;;
  put_locals (Frame (audio_path fr) (result fr) (Some v)
                (result_aligned fr) (result_diarized fr)).

Definition store_result_aligned (v : ResultDict) : M unit :=
  fr <- get_locals ;;
  put_locals (Frame (audio_path fr) (result fr) (response_data fr)
                (Some v) (result_diarized fr)).

Definition store_result_diarized (v : ResultDict) : M unit :=
  fr <- get_locals ;;
  put_locals (Frame (audio_path fr) (result fr) (response_data fr)
                (result_aligned fr) (Some v)).

(** [response_data[key] = v] for the three keys the stages assign. *)
Definition set_word_segments (v : segment_list) (rd : Response) : Response :=
  JSONResponse (text rd) (segments rd) (language rd) (Some v) (diarization rd).

Definition set_segments (v : segment_list) (rd : Response) : Response :=
  JSONResponse (text rd) v (language rd) (word_segments rd) (diarization rd).

Definition set_diarization (v : segment_list) (rd : Response) : Response :=
  JSONResponse (text rd) (segments rd) (language rd) (word_segments rd) (Some v).

Definition update_response_data (f : Response -> Response) : M unit :=
  rd <- load "response_data" response_data ;;
  store_response_data (f rd).

(** ** Files *)

Section Handlers.

Variable w : world.

(** [open(path, "wb")]: the file is created, or emptied if it is there. *)
Definition open_wb (path : string) : M unit :=
  emit (Open path) ;;;
  s <- get_sys ;;
  match os_open w s path with
  | Some e => raise e
  | None =>
      files <- get_fs ;;
      put_fs (<[resolve path := []]> files)
  end.

(** [await file.read()] *)
Definition file_read (file : UploadFile) : M bytes :=
  emit Read ;;;
  outcome (read file).

(** [f.write(data)] on the file opened at [path]. *)
Definition f_write (path : string) (data : bytes) : M unit :=
  emit (Write path data) ;;;
  s <- get_sys ;;
  match os_write w s path data with
  | Some e => raise e
  | None =>
      files <- get_fs ;;
      put_fs (<[resolve path := data]> files)
  end.

(** [os.path.exists(path)] *)
Definition os_path_exists (path : string) : M bool :=
  files <- get_fs ;;
  ret (bool_decide (is_Some (files !! resolve path))).

(** [os.remove(path)] *)
Definition remove (path : string) : M unit :=
  emit (Remove path) ;;;
  s <- get_sys ;;
  match os_remove w s path with
  | Some e => raise e
  | None =>
      files <- get_fs ;;
      match files !! resolve path with
      | Some _ => put_fs (delete (resolve path) files)
      | None =>
          raise (PyErr "FileNotFoundError"
                   ("[Errno 2] No such file or directory: '" +:+ path +:+ "'"))
      end
  end.

(** ** Calls into whisperx and torch *)

Definition whisperx_load_audio (path : string) : M object :=
  emit (LoadAudio path) ;;;
  s <- get_sys ;;
  outcome (load_audio w s path (fs s !! resolve path)).

Definition call_model_transcribe
    (audio : object) (batch_size : Z) (language : option string)
  : M ResultDict :=
  emit (ModelTranscribe audio language) ;;;
  s <- get_sys ;;
  outcome (model_transcribe w s audio batch_size language).

Definition whisperx_load_align_model (language_code device : string)
  : M (object * object) :=
  emit (LoadAlignModel language_code) ;;;
  s <- get_sys ;;
  outcome (load_align_model w s language_code device).

Definition whisperx_align
    (segs : segment_list) (model_a metadata audio : object) (device : string)
  : M ResultDict :=
  emit (Align segs) ;;;
  s <- get_sys ;;
  outcome (align w s segs model_a metadata audio device).

Definition whisperx_DiarizationPipeline
    (use_auth_token : option string) (device : string) : M object :=
  emit NewDiarizationPipeline ;;;
  s <- get_sys ;;
  outcome (DiarizationPipeline w s use_auth_token device).

Definition call_diarize_model (diarize_model_ audio : object) : M object :=
  emit (DiarizeModel audio) ;;;
  s <- get_sys ;;
  outcome (diarize_model w s diarize_model_ audio).

Definition whisperx_assign_word_speakers
    (diarize_segments : object) (transcript : ResultDict) : M ResultDict :=
  emit (AssignWordSpeakers transcript) ;;;
  s <- get_sys ;;
  outcome (assign_word_speakers w s diarize_segments transcript).

(** [gc.collect()] and then
    [torch.cuda.empty_cache() if DEVICE == "cuda" else None], after the
    [del] of the stage's model. *)
Definition reclaim : M unit :=
  emit GcCollect ;;;
  if String.eqb (DEVICE w) "cuda" then
    emit EmptyCache ;;;
    s <- get_sys ;;
    match empty_cache w s with
    | Some e => raise e
    | None => ret tt
    end
  else ret tt.

(** [d["segments"]] *)
Definition getitem_segments (d : ResultDict) : M segment_list :=
  match r_segments d with
  | Some segs => ret segs
  | None => raise (KeyError "segments")
  end.

(** [[seg.get("text", "").strip() for seg in segs]]: the first segment
    whose text is not a string raises. *)
Fixpoint stripped_texts (segs : segment_list) : exn + list string :=
  match segs with
  | [] => inr []
  | seg :: segs' =>
      match get seg "text" (VStr "") with
      | VStr s =>
          match stripped_texts segs' with
          | inr l => inr (strip s :: l)
          | inl e => inl e
          end
      | v => inl (AttributeError v "strip")
      end
  end.

(** Truth value and formatting of an optional string ([None] or a [str]). *)
Definition truthy_opt (o : option string) : bool :=
  match o with
  | Some s => truthy s
  | None => false
  end.

Definition format_opt (o : option string) : string :=
  match o with
  | Some s => s
  | None => "None"
  end.

(** ** POST /transcribe/ *)

(** The start of the [try] block: save the upload, decode it, run the
    transcription model, and build [response_data]. *)
Definition transcription_stage (file : UploadFile) (language : option string)
  : M (object * ResultDict * string) :=
  let path := "/tmp/" +:+ format_opt (filename file) in
  store_audio_path path ;;;
  open_wb path ;;;
  data <- file_read file ;;
  f_write path data ;;;
  print ("Processing file: " +:+ format_opt (filename file)) ;;;
  print "Step 1: Transcribing audio..." ;;;
  audio <- whisperx_load_audio path ;;
  result <- call_model_transcribe audio BATCH_SIZE language ;;
  store_result result ;;;
  let detected_language := default "unknown" (r_language result) in
  print ("Detected language: " +:+ detected_language) ;;;
  full_text <-
    (let full_text := default "" (r_text result) in
     if negb (truthy full_text) && bool_decide (is_Some (r_segments result))
     then
       segs <- getitem_segments result ;;
       texts <- outcome (stripped_texts segs) ;;
       ret (join " " texts)
     else ret full_text) ;;
  store_response_data
    (JSONResponse full_text (default [] (r_segments result))
       detected_language None None) ;;;
  ret (audio, result, detected_language).

(** The body of the [try] of step 2. *)
Definition align_try
    (audio : object) (result : ResultDict) (detected_language : string)
  : M unit :=
  loaded <- whisperx_load_align_model detected_language (DEVICE w) ;;
  let '(model_a, metadata) := loaded in
  segs <- getitem_segments result ;;
  aligned <- whisperx_align segs model_a metadata audio (DEVICE w) ;;
  store_result_aligned aligned ;;;
  update_response_data
    (set_word_segments (default [] (r_word_segments aligned))) ;;;
  raw <- getitem_segments result ;;
  update_response_data (set_segments (default raw (r_segments aligned))) ;;;
  reclaim ;;;
  print "Alignment completed!".

(** Step 2: an exception of the [try] is printed and [word_segments] is
    set to the empty list. *)
Definition alignment_stage
    (align : bool) (audio : object) (result : ResultDict)
    (detected_language : string) : M unit :=
  if align then
    print "Step 2: Aligning transcription..." ;;;
    try_except (align_try audio result detected_language)
      (fun e =>
         print ("Alignment warning: " +:+ str e) ;;;
         update_response_data (set_word_segments []))
  else ret tt.

(** The body of the [try] of step 3.  The transcript handed to
    [assign_word_speakers] is the local [result_aligned] whenever [align]
    is set. *)
Definition diarize_try (align : bool) (audio : object) (result : ResultDict)
  : M unit :=
  pipeline <- whisperx_DiarizationPipeline (HF_TOKEN w) (DEVICE w) ;;
  diarize_segments <- call_diarize_model pipeline audio ;;
  transcript <-
    (if align then load "result_aligned" result_aligned else ret result) ;;
  diarized <- whisperx_assign_word_speakers diarize_segments transcript ;;
  store_result_diarized diarized ;;;
  update_response_data
    (set_diarization (default [] (r_segments diarized))) ;;;
  rd <- load "response_data" response_data ;;
  update_response_data
    (set_segments (default (segments rd) (r_segments diarized))) ;;;
  reclaim ;;;
  print "Diarization completed!".

(** Step 3: an exception of the [try] is printed and raised again as an
    [HTTPException] with status 500. *)
Definition diarization_stage
    (align diarize : bool) (audio : object) (result : ResultDict) : M unit :=
  if diarize then
    print "Step 3: Running diarization..." ;;;
    try_except (diarize_try align audio result)
      (fun e =>
         print ("Diarization error: " +:+ str e) ;;;
         raise (HTTPException 500 ("Diarization failed: " +:+ str e)))
  else ret tt.

(** The whole outer [try] block.  Building the [JSONResponse] cannot
    raise: the content is made of strings and JSON-shaped values. *)
Definition transcribe_try
    (file : UploadFile) (align diarize : bool) (language : option string)
  : M Response :=
  r <- transcription_stage file language ;;
  let '(audio, result, detected_language) := r in
  alignment_stage align audio result detected_language ;;;
  diarization_stage align diarize audio result ;;;
  print ("Successfully processed: " +:+ format_opt (filename file)) ;;;
  load "response_data" response_data.

(** The outer [except Exception]. *)
Definition transcribe_except (e : exn) : M Response :=
  print ("Error processing file: " +:+ str e) ;;;
  raise (HTTPException 500 ("Processing failed: " +:+ str e)).

(** The [finally] block. *)
Definition cleanup : M unit :=
  fr <- get_locals ;;
  if truthy_opt (audio_path fr) then
    let path := format_opt (audio_path fr) in
    there <- os_path_exists path ;;
    if there then
      try_except
        (remove path ;;;
         print ("Cleaned up temporary file: " +:+ path))
        (fun e =>
           print ("Warning: Could not remove temporary file: " +:+ str e))
    else ret tt
  else ret tt.

(** [try: ... except Exception: ... finally: ...], from a fresh frame. *)
Definition transcribe_request
    (file : UploadFile) (align diarize : bool) (language : option string)
  : M Response :=
  try_finally
    (try_except (transcribe_try file align diarize language) transcribe_except)
    cleanup.

(** The handler: the two checks, then the request proper.  It gives the
    state it leaves outside and either the response or the exception the
    framework turns into an error response. *)
Definition transcribe
    (file : UploadFile) (align diarize : bool) (language : option string)
    (s : sys) : sys * (exn + Response) :=
  if negb (truthy_opt (filename file)) then
    (s, inl (HTTPException 400 "No file provided"))
  else if diarize && negb (truthy_opt (HF_TOKEN w)) then
    (s, inl (HTTPException 400
               "Diarization requires HF_TOKEN environment variable to be set"))
  else
    match transcribe_request file align diarize language (State s new_frame) with
    | (st, r) => (outside st, r)
    end.

(** ** POST /transcribe/batch/ *)

(** One entry of [results]: the file name, and by [status] either the
    result or the error message. *)
Inductive BatchEntry : Type :=
| Success (name : option string) (result : Response)
| Error (name : option string) (error : string).

Definition status (entry : BatchEntry) : string :=
  match entry with
  | Success _ _ => "success"
  | Error _ _ => "error"
  end.

Definition entry_filename (entry : BatchEntry) : option string :=
  match entry with
  | Success name _ => name
  | Error name _ => name
  end.

(** The [for file in files] loop, appending to [results]. *)
Fixpoint batch_loop
    (files : list UploadFile) (align diarize : bool)
    (language : option string) (results : list BatchEntry) (s : sys)
  : sys * list BatchEntry :=
  match files with
  | [] => (s, results)
  | file :: files' =>
      match transcribe file align diarize language s with
      | (s', inr result) =>
          batch_loop files' align diarize language
            (results ++ [Success (filename file) result]) s'
      | (s', inl e) =>
          batch_loop files' align diarize language
            (results ++ [Error (filename file) (str e)]) s'
      end
  end.

(** The handler returns [{"results": results}]. *)
Definition transcribe_batch
    (files : list UploadFile) (align diarize : bool)
    (language : option string) (s : sys)
  : sys * (exn + list BatchEntry) :=
  match batch_loop files align diarize language [] s with
  | (s', results) => (s', inr results)
  end.

End Handlers.

(** ** Sample requests and worlds *)

Module Sample.

Definition seg (start stop : Q) (t : string) : dict :=
  [("start", VFloat start); ("end", VFloat stop); ("text", VStr t)].

Definition raw_segments : segment_list :=
  [seg 0 (3 # 2) " Hello there."; seg (3 # 2) 3 " General Kenobi. "].

Definition aligned_segments : segment_list :=
  [seg (1 # 10) (7 # 5) "Hello there."; seg (8 # 5) (29 # 10) "General Kenobi."].

Definition words : segment_list :=
  [[("word", VStr "Hello"); ("start", VFloat (1 # 10)); ("score", VFloat (9 # 10))];
   [("word", VStr "there."); ("start", VFloat (3 # 5)); ("score", VFloat (4 # 5))]].

Definition diarized_segments : segment_list :=
  [("speaker", VStr "SPEAKER_00") :: seg (1 # 10) (7 # 5) "Hello there.";
   ("speaker", VStr "SPEAKER_01") :: seg (8 # 5) (29 # 10) "General Kenobi."].

(** What whisperx returns: the transcription has no [text] key. *)
Definition raw : ResultDict :=
  {| r_segments := Some raw_segments; r_word_segments := None;
     r_language := Some "en"; r_text := None |}.

Definition aligned : ResultDict :=
  {| r_segments := Some aligned_segments; r_word_segments := Some words;
     r_language := None; r_text := None |}.

Definition diarized : ResultDict :=
  {| r_segments := Some diarized_segments; r_word_segments := Some words;
     r_language := None; r_text := None |}.

Definition audio : object := Obj 1.
Definition model_a : object := Obj 2.
Definition metadata : object := Obj 3.
Definition pipeline : object := Obj 4.
Definition speaker_turns : object := Obj 5.

(** A world in which the transcription succeeds and every call answers
    the same whatever the state outside; the credential, the outcome of
    [os.remove], of loading the alignment model and of building the
    diarization pipeline are left open. *)
Definition studio
    (token : option string) (removal : option exn)
    (align_model : exn + (object * object)) (pipe : exn + object) : world :=
  {| HF_TOKEN := token;
     DEVICE := "cuda";
     os_open := fun _ _ => None;
     os_write := fun _ _ _ => None;
     os_remove := fun _ _ => removal;
     load_audio := fun _ _ _ => inr audio;
     model_transcribe := fun _ _ _ _ => inr raw;
     load_align_model := fun _ _ _ => align_model;
     align := fun _ _ _ _ _ _ => inr aligned;
     empty_cache := fun _ => None;
     DiarizationPipeline := fun _ _ _ => pipe;
     diarize_model := fun _ _ _ => inr speaker_turns;
     assign_word_speakers := fun _ _ _ => inr diarized |}.

Definition no_align_model : exn :=
  PyErr "ValueError" "No default align-model for language: en".

Definition bad_token : exn :=
  PyErr "OSError" "Could not download the pipeline: check the token".

Definition busy : exn :=
  PyErr "PermissionError" "[Errno 13] Permission denied: '/tmp/talk.wav'".

(** Everything works and a credential is set. *)
Definition fine : world :=
  studio (Some "hf_secret") None (inr (model_a, metadata)) (inr pipeline).

(** No credential. *)
Definition anonymous : world :=
  studio None None (inr (model_a, metadata)) (inr pipeline).

(** The alignment model cannot be loaded. *)
Definition unaligned : world :=
  studio (Some "hf_secret") None (inl no_align_model) (inr pipeline).

(** The alignment model cannot be loaded and the pipeline cannot be
    built. *)
Definition unaligned_bad_token : world :=
  studio (Some "hf_secret") None (inl no_align_model) (inl bad_token).

(** The diarization pipeline cannot be built. *)
Definition undiarized : world :=
  studio (Some "hf_secret") None (inr (model_a, metadata)) (inl bad_token).

(** The temporary file cannot be removed. *)
Definition sticky : world :=
  studio (Some "hf_secret") (Some busy) (inr (model_a, metadata)) (inr pipeline).

Definition payload : bytes := [Byte.x52; Byte.x49; Byte.x46; Byte.x46].

Definition talk : UploadFile :=
  {| filename := Some "talk.wav"; read := inr payload |}.

Definition nameless : UploadFile :=
  {| filename := None; read := inr payload |}.

Definition truncated : UploadFile :=
  {| filename := Some "cut.wav";
     read := inl (PyErr "ClientDisconnect" "client closed the connection") |}.

Definition escaping : UploadFile :=
  {| filename := Some "../etc/passwd"; read := inr payload |}.

Definition empty_sys : sys := {| fs := ∅; trace := [] |}.

(** The responses to [talk]: with everything working, with and without
    diarization, and when the alignment model cannot be loaded. *)
Definition aligned_response : Response :=
  JSONResponse "Hello there. General Kenobi." aligned_segments "en"
    (Some words) None.

Definition diarized_response : Response :=
  JSONResponse "Hello there. General Kenobi." diarized_segments "en"
    (Some words) (Some diarized_segments).

Definition degraded_response : Response :=
  JSONResponse "Hello there. General Kenobi." raw_segments "en"
    (Some []) None.

(** The states of a request for [talk] from [empty_sys]: after the first
    stage, and after step 2. *)
Definition transcribed (w : world) : state :=
  fst (transcription_stage w talk None (State empty_sys new_frame)).

Definition after_alignment (w : world) : state :=
  fst (alignment_stage w true audio raw "en" (transcribed w)).

End Sample.

(** [w] with another [os.remove]. *)
Definition with_os_remove (w : world) (rm : sys -> string -> option exn)
  : world :=
  {| HF_TOKEN := HF_TOKEN w;
     DEVICE := DEVICE w;
     os_open := os_open w;
     os_write := os_write w;
     os_remove := rm;
     load_audio := load_audio w;
     model_transcribe := model_transcribe w;
     load_align_model := load_align_model w;
     align := align w;
     empty_cache := empty_cache w;
     DiarizationPipeline := DiarizationPipeline w;
     diarize_model := diarize_model w;
     assign_word_speakers := assign_word_speakers w |}.

(** ** Notions the properties are stated with *)

(** The segments a stage contributes: those of its result, when the
    stage's result is bound and has a [segments] entry. *)
Definition stage_segments (r : option ResultDict) : option segment_list :=
  match r with
  | Some d => r_segments d
  | None => None
  end.

(** Diarized before aligned before raw; the empty list when no stage
    contributes. *)
Definition most_refined (diarized aligned raw : option ResultDict)
  : segment_list :=
  match stage_segments diarized, stage_segments aligned, stage_segments raw with
  | Some segs, _, _ => segs
  | None, Some segs, _ => segs
  | None, None, Some segs => segs
  | None, None, None => []
  end.

(** The text of a segment, empty when it has none. *)
Definition seg_text (seg : dict) : string :=
  match get seg "text" (VStr "") with
  | VStr s => s
  | _ => ""
  end.

(** The text of the response as the specification words it: the combined
    text of the transcription when it supplies one (a non-empty [text]),
    otherwise the texts of its segments, each stripped, joined by single
    spaces. *)
Definition spec_text (res : ResultDict) : string :=
  if truthy (default "" (r_text res)) then default "" (r_text res)
  else join " " (map (fun seg => strip (seg_text seg))
                   (default [] (r_segments res))).

(** The entry of [results] for one file: what the handler answers for it
    when entered in state [s0]. *)
Definition entry
    (w : world) (align diarize : bool) (language : option string)
    (s0 : sys) (file : UploadFile) : BatchEntry :=
  match snd (transcribe w file align diarize language s0) with
  | inr result => Success (filename file) result
  | inl e => Error (filename file) (str e)
  end.

(** A statement is oblivious when neither its outcome nor the locals it
    leaves depend on the state outside. *)
Definition oblivious {A} (m : M A) : Prop :=
  forall st1 st2, locals st1 = locals st2 ->
    snd (m st1) = snd (m st2) /\ locals (fst (m st1)) = locals (fst (m st2)).

(** The calls of a world are steady when they answer from their arguments
    alone, whatever the state outside: the models are deterministic and
    keep nothing from one call to the next, and whether [open] and
    [write] succeed does not depend on what the store holds.  Nothing is
    asked of [os.remove]. *)
Record steady (w : world) : Prop := {
  steady_os_open :
    forall s1 s2 path, os_open w s1 path = os_open w s2 path;
  steady_os_write :
    forall s1 s2 path data, os_write w s1 path data = os_write w s2 path data;
  steady_load_audio :
    forall s1 s2 path content,
      load_audio w s1 path content = load_audio w s2 path content;
  steady_model_transcribe :
    forall s1 s2 audio batch_size language,
      model_transcribe w s1 audio batch_size language
      = model_transcribe w s2 audio batch_size language;
  steady_load_align_model :
    forall s1 s2 language_code device,
      load_align_model w s1 language_code device
      = load_align_model w s2 language_code device;
  steady_align :
    forall s1 s2 segs model_a metadata audio device,
      align w s1 segs model_a metadata audio device
      = align w s2 segs model_a metadata audio device;
  steady_empty_cache : forall s1 s2, empty_cache w s1 = empty_cache w s2;
  steady_DiarizationPipeline :
    forall s1 s2 use_auth_token device,
      DiarizationPipeline w s1 use_auth_token device
      = DiarizationPipeline w s2 use_auth_token device;
  steady_diarize_model :
    forall s1 s2 pipeline audio,
      diarize_model w s1 pipeline audio = diarize_model w s2 pipeline audio;
  steady_assign_word_speakers :
    forall s1 s2 diarize_segments transcript,
      assign_word_speakers w s1 diarize_segments transcript
      = assign_word_speakers w s2 diarize_segments transcript
}.

(** ** Start-up configuration and the GET handlers *)

(** The process when the module is loaded: its environment variables,
    and whether torch finds a CUDA device. *)
Record process : Type := {
  environ : gmap string string;
  cuda_is_available : bool
}.

(** [DEVICE = "cuda" if torch.cuda.is_available() else "cpu"] *)
Definition startup_DEVICE (p : process) : string :=
  if cuda_is_available p then "cuda" else "cpu".

(** [COMPUTE_TYPE = "float16" if DEVICE == "cuda" else "int8"] *)
Definition COMPUTE_TYPE (p : process) : string :=
  if String.eqb (startup_DEVICE p) "cuda" then "float16" else "int8".

(** [MODEL_NAME = os.getenv("WHISPER_MODEL", "large-v3")] *)
Definition MODEL_NAME (p : process) : string :=
  default "large-v3" (environ p !! "WHISPER_MODEL").

(** The world the handlers run in once the module is loaded:
    [HF_TOKEN = os.getenv("HF_TOKEN")] and [DEVICE] as above, the
    external calls as they are. *)
Definition boot (p : process) (w : world) : world :=
  {| HF_TOKEN := environ p !! "HF_TOKEN";
     DEVICE := startup_DEVICE p;
     os_open := os_open w;
     os_write := os_write w;
     os_remove := os_remove w;
     load_audio := load_audio w;
     model_transcribe := model_transcribe w;
     load_align_model := load_align_model w;
     align := align w;
     empty_cache := empty_cache w;
     DiarizationPipeline := DiarizationPipeline w;
     diarize_model := diarize_model w;
     assign_word_speakers := assign_word_speakers w |}.

(** The answer of [GET /]. *)
Record RootInfo : Type := {
  root_status : string;
  service : string;
  root_device : string;
  model : string;
  features : list string
}.

Definition root (p : process) (w : world) : RootInfo :=
  {| root_status := "healthy";
     service := "WhisperX API";
     root_device := DEVICE w;
     model := MODEL_NAME p;
     features := ["transcription"; "alignment"; "diarization"] |}.

(** The answer of [GET /health].  [cuda_now] is what
    [torch.cuda.is_available()] gives when the request is served; the
    transcription model is loaded once the module is, so [model is not
    None] holds; [diarization_available] is [HF_TOKEN is not None]. *)
Record HealthInfo : Type := {
  health_status : string;
  cuda_available : bool;
  health_device : string;
  model_loaded : bool;
  diarization_available : bool
}.

Definition health (w : world) (cuda_now : bool) : HealthInfo :=
  {| health_status := "healthy";
     cuda_available := cuda_now;
     health_device := DEVICE w;
     model_loaded := true;
     diarization_available :=
       match HF_TOKEN w with
       | Some _ => true
       | None => false
       end |}.

(** ** Kinds of events *)

(** Calls of the alignment stage. *)
Definition is_alignment_call (ev : event) : bool :=
  match ev with
  | LoadAlignModel _ | Align _ => true
  | _ => false
  end.

(** Calls of the diarization stage. *)
Definition is_diarization_call (ev : event) : bool :=
  match ev with
  | NewDiarizationPipeline | DiarizeModel _ | AssignWordSpeakers _ => true
  | _ => false
  end.

(** Calls into whisperx and torch. *)
Definition is_model_call (ev : event) : bool :=
  match ev with
  | LoadAudio _ | ModelTranscribe _ _ | GcCollect | EmptyCache => true
  | _ => is_alignment_call ev || is_diarization_call ev
  end.

(** A statement emits [P] when all it does to the trace is to add events
    that satisfy [P]. *)
Definition emits {A} (P : event -> Prop) (m : M A) : Prop :=
  forall st st' r, m st = (st', r) ->
    exists evs : list event,
      trace (outside st') = (trace (outside st) ++ evs)%list /\ Forall P evs.

(** [audio_path] is [None] or the temporary path. *)
Definition audio_ok (path : string) (st : state) : Prop :=
  audio_path (locals st) = None \/ audio_path (locals st) = Some path.

(** The path a call hands to the operating system or to whisperx. *)
Definition event_path (ev : event) : option string :=
  match ev with
  | Open path | Write path _ | LoadAudio path | Remove path => Some path
  | _ => None
  end.

(** An event that names no path but [path]. *)
Definition names_only (path : string) (ev : event) : Prop :=
  from_option (eq path) True (event_path ev).

(** A statement is confined to [path] when it keeps [audio_ok] and names
    no other path in its calls. *)
Definition confined {A} (path : string) (m : M A) : Prop :=
  forall st st' r, m st = (st', r) -> audio_ok path st ->
    audio_ok path st'
    /\ exists evs : list event,
         trace (outside st') = (trace (outside st) ++ evs)%list
         /\ Forall (names_only path) evs.

(** The temporary path of an upload. *)
Definition temporary_path (file : UploadFile) : string :=
  "/tmp/" +:+ format_opt (filename file).

(** The two checks pass. *)
Definition checked (w : world) (file : UploadFile) (diarize : bool) : bool :=
  truthy_opt (filename file) && negb (diarize && negb (truthy_opt (HF_TOKEN w))).

(** ** More sample worlds *)

Module Edge.

(** A store that already holds a file at [/tmp/talk.wav]. *)
Definition occupied : sys :=
  {| fs := {[ ["tmp"; "talk.wav"] := [Byte.x6f; Byte.x6c; Byte.x64] ]};
     trace := [] |}.

Definition denied (path : string) : exn :=
  PyErr "PermissionError" ("[Errno 13] Permission denied: '" +:+ path +:+ "'").

(** [Sample.fine] where the files that are already in the store are
    read-only, in a directory that lets them be deleted: [open] for
    writing fails on a path at whose location the store holds a file. *)
Definition read_only : world :=
  {| HF_TOKEN := HF_TOKEN Sample.fine;
     DEVICE := DEVICE Sample.fine;
     os_open := fun s path =>
       if bool_decide (is_Some (fs s !! resolve path))
       then Some (denied path) else None;
     os_write := os_write Sample.fine;
     os_remove := os_remove Sample.fine;
     load_audio := load_audio Sample.fine;
     model_transcribe := model_transcribe Sample.fine;
     load_align_model := load_align_model Sample.fine;
     align := align Sample.fine;
     empty_cache := empty_cache Sample.fine;
     DiarizationPipeline := DiarizationPipeline Sample.fine;
     diarize_model := diarize_model Sample.fine;
     assign_word_speakers := assign_word_speakers Sample.fine |}.

(** A transcription whose second segment has [None] for text. *)
Definition mute : ResultDict :=
  {| r_segments :=
       Some [Sample.seg 0 1 " Hello"; [("start", VFloat 1); ("text", VNone)];
             Sample.seg 2 3 " again"];
     r_word_segments := None;
     r_language := Some "en";
     r_text := None |}.

(** A transcription without segments, text or language. *)
Definition bare : ResultDict :=
  {| r_segments := None; r_word_segments := None;
     r_language := None; r_text := None |}.

Definition cuda_lost : exn := PyErr "RuntimeError" "CUDA error: unspecified launch failure".

(** [Sample.fine] with another transcription result and another outcome
    of [torch.cuda.empty_cache()]. *)
Definition returning (res : ResultDict) (cache : option exn) : world :=
  {| HF_TOKEN := HF_TOKEN Sample.fine;
     DEVICE := DEVICE Sample.fine;
     os_open := os_open Sample.fine;
     os_write := os_write Sample.fine;
     os_remove := os_remove Sample.fine;
     load_audio := load_audio Sample.fine;
     model_transcribe := fun _ _ _ _ => inr res;
     load_align_model := load_align_model Sample.fine;
     align := align Sample.fine;
     empty_cache := fun _ => cache;
     DiarizationPipeline := DiarizationPipeline Sample.fine;
     diarize_model := diarize_model Sample.fine;
     assign_word_speakers := assign_word_speakers Sample.fine |}.

Definition is_empty_cache (ev : event) : bool :=
  match ev with
  | EmptyCache => true
  | _ => false
  end.

(** [Sample.fine] where [torch.cuda.empty_cache()] raises the first time
    it is called and works from then on. *)
Definition flaky_cache : world :=
  {| HF_TOKEN := HF_TOKEN Sample.fine;
     DEVICE := DEVICE Sample.fine;
     os_open := os_open Sample.fine;
     os_write := os_write Sample.fine;
     os_remove := os_remove Sample.fine;
     load_audio := load_audio Sample.fine;
     model_transcribe := model_transcribe Sample.fine;
     load_align_model := load_align_model Sample.fine;
     align := align Sample.fine;
     empty_cache := fun s =>
       match List.filter is_empty_cache (trace s) with
       | [_] => Some cuda_lost
       | _ => None
       end;
     DiarizationPipeline := DiarizationPipeline Sample.fine;
     diarize_model := diarize_model Sample.fine;
     assign_word_speakers := assign_word_speakers Sample.fine |}.

(** A disk that is full. *)
Definition full_disk : world :=
  {| HF_TOKEN := HF_TOKEN Sample.fine;
     DEVICE := DEVICE Sample.fine;
     os_open := os_open Sample.fine;
     os_write := fun _ _ _ =>
       Some (PyErr "OSError" "[Errno 28] No space left on device");
     os_remove := os_remove Sample.fine;
     load_audio := load_audio Sample.fine;
     model_transcribe := model_transcribe Sample.fine;
     load_align_model := load_align_model Sample.fine;
     align := align Sample.fine;
     empty_cache := empty_cache Sample.fine;
     DiarizationPipeline := DiarizationPipeline Sample.fine;
     diarize_model := diarize_model Sample.fine;
     assign_word_speakers := assign_word_speakers Sample.fine |}.

(** The environment sets [HF_TOKEN] to the empty string. *)
Definition blank_token : process :=
  {| environ := {[ "HF_TOKEN" := "" ]}; cuda_is_available := false |}.

End Edge.

(** ** Further notions *)

(** The upload cannot be saved: [open], [file.read()] or [f.write]
    raises [e], whatever the state outside. *)
Definition upload_fails (w : world) (file : UploadFile) (e : exn) : Prop :=
  (forall s0, os_open w s0 (temporary_path file) = Some e)
  \/ ((forall s0, os_open w s0 (temporary_path file) = None)
      /\ read file = inl e)
  \/ ((forall s0, os_open w s0 (temporary_path file) = None)
      /\ exists data, read file = inr data
           /\ forall s0, os_write w s0 (temporary_path file) data = Some e).

(** The message of an [Error] entry starts with the status of the
    exception the handler raised. *)
Definition error_message_format (e : BatchEntry) : Prop :=
  match e with
  | Success _ _ => True
  | Error _ msg =>
      (exists detail, msg = "400: " +:+ detail)
      \/ (exists detail, msg = "500: Processing failed: " +:+ detail)
  end.

(** ** The start of [test_whisperx_direct.py] *)

Module Direct.

(** How the script gets to its [try] block: it exits with a status,
    an exception escapes, or it goes on with the audio file and the
    credential. *)
Inductive started : Type :=
| Exit (code : Z)
| Crash (e : exn)
| Ready (audio_file : string) (hf_token : option string).

(** [l.index(x)]: the position of the first [x], if [x in l]. *)
Fixpoint index (x : string) (l : list string) : option nat :=
  match l with
  | [] => None
  | y :: l' => if String.eqb y x then Some O else S <$> index x l'
  end.

(** [s * n] *)
Fixpoint times (s : string) (n : nat) : string :=
  match n with
  | O => ""
  | S n' => s +:+ times s n'
  end.

(** The script from its configuration to the [try]: the lines it prints
    and how it ends.  [path_exists] is [os.path.exists]. *)
Definition prelude
    (p : process) (argv : list string) (path_exists : string -> bool)
  : list string * started :=
  let device := if cuda_is_available p then "cuda" else "cpu" in
  let compute_type := if String.eqb device "cuda" then "float16" else "int8" in
  let out :=
    ["🔧 Device: " +:+ device; "🔧 Compute type: " +:+ compute_type; ""] in
  match argv with
  | _ :: audio_file :: _ =>
      let from_flag :=
        match index "--hf-token" argv with
        | Some idx =>
            match argv !! S idx with
            | Some token => inr (Some token)
            | None => inl (PyErr "IndexError" "list index out of range")
            end
        | None => inr (environ p !! "HF_TOKEN")
        end in
      match from_flag with
      | inl e => (out, Crash e)
      | inr hf_token =>
          let out :=
            if truthy_opt hf_token then out
            else (out ++
                  ["⚠️  Warning: No HF_TOKEN provided. Diarization will be skipped.";
                   "   Set with: export HF_TOKEN=your_token";
                   ""])%list in
          if path_exists audio_file then
            ((out ++ ["📁 Audio file: " +:+ audio_file; times "=" 60; ""])%list,
             Ready audio_file hf_token)
          else
            ((out ++ ["❌ Error: File '" +:+ audio_file +:+ "' not found"])%list,
             Exit 1)
      end
  | _ =>
      ((out ++ ["❌ Usage: python test_whisperx_direct.py <audio_file> [--hf-token TOKEN]"])%list,
       Exit 1)
  end.

End Direct.

(** * Properties *)

(** ** Running statements *)

Section Run.
Context {A B : Type}.

Lemma bind_inr (m : M A) (k : A -> M B) st st' a :
  m st = (st', inr a) -> bind m k st = k a st'.
Proof. unfold bind. intros ->. reflexivity. Qed.

Lemma bind_inl (m : M A) (k : A -> M B) st st' e :
  m st = (st', inl e) -> bind m k st = (st', inl e).
Proof. unfold bind. intros ->. reflexivity. Qed.

Lemma try_except_inr (m : M A) (h : exn -> M A) st st' a :
  m st = (st', inr a) -> try_except m h st = (st', inr a).
Proof. unfold try_except. intros ->. reflexivity. Qed.

Lemma try_except_inl (m : M A) (h : exn -> M A) st st' e :
  m st = (st', inl e) -> try_except m h st = h e st'.
Proof. unfold try_except. intros ->. reflexivity. Qed.

Lemma try_finally_returns (m : M A) (final : M unit) st st' st'' r :
  m st = (st', r) -> final st' = (st'', inr tt) ->
  try_finally m final st = (st'', r).
Proof. unfold try_finally. intros -> ->. reflexivity. Qed.

Lemma bind_inv (m : M A) (k : A -> M B) st st' r :
  bind m k st = (st', r) ->
  (exists e, m st = (st', inl e) /\ r = inl e)
  \/ (exists st1 a, m st = (st1, inr a) /\ k a st1 = (st', r)).
Proof.
  unfold bind. destruct (m st) as [st1 [e | a]]; intros H.
  - left. exists e. inversion H. auto.
  - right. exists st1, a. auto.
Qed.

Lemma try_except_inv (m : M A) (h : exn -> M A) st st' r :
  try_except m h st = (st', r) ->
  (exists a, m st = (st', inr a) /\ r = inr a)
  \/ (exists st1 e, m st = (st1, inl e) /\ h e st1 = (st', r)).
Proof.
  unfold try_except. destruct (m st) as [st1 [e | a]]; intros H.
  - right. exists st1, e. auto.
  - left. exists a. inversion H. auto.
Qed.

Lemma try_finally_inv (m : M A) (final : M unit) st st' r :
  try_finally m final st = (st', r) ->
  exists st1 r1, m st = (st1, r1)
    /\ ((final st1 = (st', inr tt) /\ r = r1)
        \/ (exists e, final st1 = (st', inl e) /\ r = inl e)).
Proof.
  unfold try_finally. destruct (m st) as [st1 r1].
  destruct (final st1) as [st2 [e | []]] eqn:E; intros H; inversion H; subst.
  - eexists st1, _. split; [reflexivity |]. right. exists e. auto.
  - eexists st1, _. split; [reflexivity |]. left. auto.
Qed.

End Run.

Lemma print_run line st : print line st = (fst (print line st), inr tt).
Proof. reflexivity. Qed.

(** Symbolic execution: unfold the statements, then split on every
    outcome of an external call that the run depends on. *)
Ltac unfold_m :=
  unfold try_finally, try_except, update_response_data, load,
    store_audio_path, store_result, store_response_data, store_result_aligned,
    store_result_diarized, open_wb, file_read, f_write, os_path_exists, remove,
    whisperx_load_audio, call_model_transcribe, whisperx_load_align_model,
    whisperx_align, whisperx_DiarizationPipeline, call_diarize_model,
    whisperx_assign_word_speakers, reclaim, getitem_segments, outcome,
    print, emit, get_sys, get_fs, put_fs, get_locals, put_locals, bind, ret,
    raise in *.

Ltac run := repeat (case_match; simplify_eq; simpl in * ).

Ltac finish :=
  simplify_eq; simpl in *;
  rewrite <- ?app_assoc;
  eexists _, _, _; split_and!; try reflexivity; intros;
  repeat match goal with
         | H : is_Some None |- _ => destruct H; discriminate
         | |- _ <-> _ => split; intros
         | |- _ /\ _ => split
         end;
  simplify_eq; eauto; try congruence;
  repeat (case_match; simplify_eq; simpl in * ); eauto; try congruence;
  repeat match goal with
         | H : r_segments _ = _ |- _ => rewrite H in *
         end;
  simpl; eauto; try congruence.

(** ** The first stage *)

Lemma truthy_false s : truthy s = false -> s = "".
Proof. destruct s; [reflexivity | discriminate]. Qed.

Lemma stripped_texts_map segs texts :
  stripped_texts segs = inr texts ->
  texts = map (fun seg => strip (seg_text seg)) segs.
Proof.
  revert texts. induction segs as [| seg segs IH]; simpl; intros texts H.
  - congruence.
  - unfold seg_text.
    destruct (get seg "text" (VStr "")); try discriminate.
    destruct (stripped_texts segs); try discriminate.
    inversion H. f_equal. apply IH. reflexivity.
Qed.

(** When the first stage returns, [result] holds what the transcription
    model returned and [response_data] has just been built from it. *)
Lemma transcription_stage_frame w file language s st1 audio res lang :
  transcription_stage w file language (State s new_frame)
  = (st1, inr (audio, res, lang)) ->
  (exists s0, model_transcribe w s0 audio BATCH_SIZE language = inr res)
  /\ lang = default "unknown" (r_language res)
  /\ locals st1
     = Frame (Some ("/tmp/" +:+ format_opt (filename file))) (Some res)
         (Some (JSONResponse (spec_text res) (default [] (r_segments res))
                  lang None None))
         None None.
Proof.
  unfold transcription_stage, spec_text. unfold_m. simpl. intros H.
  run; try (split_and!; [eauto | done | done]).
  - erewrite <- stripped_texts_map by eassumption.
    split_and!; [eauto | done | done].
  - destruct (r_segments res); [discriminate |].
    match goal with
    | Ht : truthy _ = false |- _ => rewrite (truthy_false _ Ht)
    end.
    split_and!; [eauto | done | done].
Qed.

(** However the first stage ends, [audio_path] is bound to the temporary
    path and [open] was called with it; when it returns, the store holds
    the upload at the location the path resolves to. *)
Lemma transcription_stage_any w file language s st1 r :
  transcription_stage w file language (State s new_frame) = (st1, r) ->
  let path := "/tmp/" +:+ format_opt (filename file) in
  audio_path (locals st1) = Some path
  /\ (exists evs : list event,
        trace (outside st1) = (trace s ++ Open path :: evs)%list)
  /\ (forall x data, r = inr x -> read file = inr data ->
        fs (outside st1) !! resolve path = Some data).
Proof.
  unfold transcription_stage. unfold_m. simpl. intros H.
  destruct s as [files tr].
  run; rewrite <- ?app_assoc; simpl.
  all: split_and!; [reflexivity | eexists; reflexivity |].
  all: intros; simplify_eq; try apply lookup_insert_eq.
Qed.

(** ** Steps 2 and 3 *)

(** An alignment that raised before [result_aligned] was bound has
    changed no local. *)
Lemma align_try_unbound w audio res lang st st2 e :
  align_try w audio res lang st = (st2, inl e) ->
  result_aligned (locals st2) = None ->
  locals st2 = locals st.
Proof.
  unfold align_try. unfold_m. simpl. intros H Hn.
  run; try discriminate; destruct (locals st); reflexivity.
Qed.

(** Step 2 never raises.  It leaves the store alone, only adds to the
    trace, and keeps [segments] the most refined of the raw and the
    aligned result. *)
Lemma alignment_stage_run w align audio res lang o p rd st' r :
  alignment_stage w align audio res lang
    (State o (Frame p (Some res) (Some rd) None None)) = (st', r) ->
  segments rd = default [] (r_segments res) ->
  exists evs rd' ra,
    r = inr tt
    /\ st' = State {| fs := fs o; trace := trace o ++ evs |}
               (Frame p (Some res) (Some rd') ra None)
    /\ segments rd' = most_refined None ra (Some res)
    /\ text rd' = text rd
    /\ (is_Some ra -> align = true)
    /\ (align = true -> ra = None ->
        segments rd' = segments rd /\ word_segments rd' = Some []).
Proof.
  unfold alignment_stage, align_try, most_refined. unfold_m.
  intros H Hseg. destruct o as [files tr].
  run; rewrite ?Hseg; try (finish; fail).
  all: exists [], rd, None; rewrite app_nil_r.
  all: split_and!; try done; intros [? ?]; done.
Qed.

(** Step 3 leaves the store alone and only adds to the trace; when it
    returns, [segments] is the most refined of the three results, and
    [result_diarized] is bound exactly when diarization was requested. *)
Lemma diarization_stage_run w align diarize audio res o p rd ra st' r :
  diarization_stage w align diarize audio res
    (State o (Frame p (Some res) (Some rd) ra None)) = (st', r) ->
  segments rd = most_refined None ra (Some res) ->
  (is_Some ra -> align = true) ->
  exists evs rd' rz,
    st' = State {| fs := fs o; trace := trace o ++ evs |}
            (Frame p (Some res) (Some rd') ra rz)
    /\ text rd' = text rd
    /\ (diarize = false -> r = inr tt /\ rd' = rd /\ rz = None)
    /\ (r = inr tt ->
        segments rd' = most_refined rz ra (Some res)
        /\ (is_Some rz <-> diarize = true)).
Proof.
  unfold diarization_stage, diarize_try, most_refined. unfold_m.
  intros H Hseg Hal. destruct o as [files tr].
  run; rewrite ?Hseg; try (finish; fail).
  all: exists [], rd, None; rewrite app_nil_r.
  all: split_and!; intros; simplify_eq; try done.
  all: repeat split; intros; simplify_eq; try done.
Qed.

(** The state in which the [except] of step 2 leaves an alignment that
    raised before its result was bound. *)
Lemma alignment_stage_unbound w file language s st1 st2 audio res lang e :
  transcription_stage w file language (State s new_frame)
  = (st1, inr (audio, res, lang)) ->
  align_try w audio res lang
    (fst (print "Step 2: Aligning transcription..." st1)) = (st2, inl e) ->
  result_aligned (locals st2) = None ->
  alignment_stage w true audio res lang st1
  = (State {| fs := fs (outside st2);
              trace := trace (outside st2)
                       ++ [Print ("Alignment warning: " +:+ str e)] |}
         (Frame (Some ("/tmp/" +:+ format_opt (filename file))) (Some res)
            (Some (JSONResponse (spec_text res) (default [] (r_segments res))
                     lang (Some []) None))
            None None), inr tt).
Proof.
  intros H1 H2 Hn.
  apply transcription_stage_frame in H1 as (_ & _ & Hfr).
  apply align_try_unbound in H2 as Hl; [| exact Hn].
  simpl in Hl. rewrite Hfr in Hl.
  unfold alignment_stage.
  erewrite bind_inr by apply print_run.
  erewrite try_except_inl by exact H2.
  destruct st2 as [o2 fr2]. simpl in Hl. subst fr2.
  reflexivity.
Qed.

(** ** The [except] and [finally] of the request *)

Lemma transcribe_except_raises e st st' r :
  transcribe_except e st = (st', r) ->
  r = inl (HTTPException 500 ("Processing failed: " +:+ str e))
  /\ locals st' = locals st.
Proof.
  unfold transcribe_except. unfold_m. intros H. simplify_eq. auto.
Qed.

(** The [finally] block never raises and changes no local. *)
Lemma cleanup_run w st st' r :
  cleanup w st = (st', r) -> r = inr tt /\ locals st' = locals st.
Proof.
  unfold cleanup. unfold_m. intros H.
  run; split; reflexivity.
Qed.

Lemma cleanup_returns w st : exists st', cleanup w st = (st', inr tt).
Proof.
  destruct (cleanup w st) as [st' r] eqn:E.
  apply cleanup_run in E as E'. destruct E' as [-> _]. eauto.
Qed.

Lemma cleanup_trace w st st' r :
  cleanup w st = (st', r) ->
  exists evs : list event,
    trace (outside st') = (trace (outside st) ++ evs)%list.
Proof.
  unfold cleanup. unfold_m. intros H.
  run; rewrite <- ?app_assoc; try (eexists; reflexivity).
  all: exists []; rewrite app_nil_r; reflexivity.
Qed.

(** After the [finally] block the file is gone, or [os.remove] failed and
    the failure was printed. *)
Lemma cleanup_removes w st st' r path :
  audio_path (locals st) = Some path ->
  truthy path = true ->
  cleanup w st = (st', r) ->
  fs (outside st') !! resolve path = None
  \/ exists s0 e, os_remove w s0 path = Some e
       /\ fs s0 = fs (outside st')
       /\ Print ("Warning: Could not remove temporary file: " +:+ str e)
          ∈ trace (outside st').
Proof.
  unfold cleanup. unfold_m. intros Hp Ht H. rewrite Hp in H. simpl in H.
  rewrite Ht in H.
  run.
  - right. eexists _, _. split_and!; [eassumption | reflexivity |]. set_solver.
  - left. apply lookup_delete_eq.
  - left. case_bool_decide; simplify_eq.
    apply eq_None_not_Some. assumption.
Qed.

(** Once the two checks pass, the handler is the request run from a
    fresh frame. *)
Lemma transcribe_checked w file align diarize language s :
  truthy_opt (filename file) = true ->
  diarize && negb (truthy_opt (HF_TOKEN w)) = false ->
  transcribe w file align diarize language s
  = (outside (fst (transcribe_request w file align diarize language
                     (State s new_frame))),
     snd (transcribe_request w file align diarize language
            (State s new_frame))).
Proof.
  intros Hf Hd. unfold transcribe. rewrite Hf, Hd. simpl.
  destruct (transcribe_request _ _ _ _ _ _). reflexivity.
Qed.

Lemma transcribe_returns w file align diarize language s s' resp :
  transcribe w file align diarize language s = (s', inr resp) ->
  exists st,
    transcribe_request w file align diarize language (State s new_frame)
    = (st, inr resp) /\ outside st = s'.
Proof.
  unfold transcribe.
  destruct (negb (truthy_opt (filename file))); [discriminate |].
  destruct (diarize && negb (truthy_opt (HF_TOKEN w))); [discriminate |].
  destruct (transcribe_request _ _ _ _ _ _) as [st r]. intros H.
  inversion H; subst. eauto.
Qed.

(** The [finally] block does not change the outcome. *)
Lemma transcribe_request_outcome w file align diarize language st :
  snd (transcribe_request w file align diarize language st)
  = snd (try_except (transcribe_try w file align diarize language)
           transcribe_except st).
Proof.
  unfold transcribe_request.
  destruct (try_except _ _ st) as [st' r] eqn:E.
  destruct (cleanup_returns w st') as [st'' Hc].
  rewrite (try_finally_returns _ _ _ _ _ _ E Hc). reflexivity.
Qed.

(** ** The request as a whole *)

(** The frame a request that succeeds leaves behind. *)
Lemma transcribe_request_success w file align diarize language s st resp :
  transcribe_request w file align diarize language (State s new_frame)
  = (st, inr resp) ->
  exists audio res ra rz,
    (exists s0, model_transcribe w s0 audio BATCH_SIZE language = inr res)
    /\ locals st
       = Frame (Some ("/tmp/" +:+ format_opt (filename file))) (Some res)
           (Some resp) ra rz
    /\ segments resp = most_refined rz ra (Some res)
    /\ text resp = spec_text res
    /\ (is_Some rz <-> diarize = true)
    /\ (is_Some ra -> align = true).
Proof.
  unfold transcribe_request. intros H.
  apply try_finally_inv in H as (st1 & r1 & Hbody & [[Hc <-] | (e & Hc & ?)]);
    [| apply cleanup_run in Hc as [? _]; congruence].
  apply cleanup_run in Hc as [_ ->].
  apply try_except_inv in Hbody as [(a & Hbody & Ha) | (st0 & e & _ & He)];
    [| apply transcribe_except_raises in He as [? _]; congruence].
  inversion Ha; subst a; clear Ha.
  unfold transcribe_try in Hbody.
  apply bind_inv in Hbody
    as [(e & _ & ?) | (st2 & [[audio res] lang] & H1 & Hbody)];
    [congruence |].
  apply transcription_stage_frame in H1 as H1'.
  destruct H1' as (Hmodel & Hlang & Hfr).
  destruct st2 as [o fr]. simpl in Hfr. subst fr.
  apply bind_inv in Hbody as [(e & _ & ?) | (st3 & [] & H2 & Hbody)];
    [congruence |].
  apply alignment_stage_run in H2
    as (evs & rd' & ra & _ & -> & Hseg & Htext & Hal & _);
    [| reflexivity].
  apply bind_inv in Hbody as [(e & _ & ?) | (st4 & [] & H3 & Hbody)];
    [congruence |].
  apply diarization_stage_run in H3
    as (evs' & rd'' & rz & -> & Htext' & _ & Hok);
    [| exact Hseg | exact Hal].
  destruct (Hok eq_refl) as [Hseg' Hrz].
  unfold_m. simpl in Hbody. inversion Hbody; subst. simpl.
  exists audio, res, ra, rz. split_and!; try done.
  rewrite Htext', Htext. reflexivity.
Qed.

(** The outer [try] block, however it ends: [audio_path] is bound to the
    temporary path and [open] was called with it. *)
Lemma transcribe_try_any w file align diarize language s st r :
  transcribe_try w file align diarize language (State s new_frame) = (st, r) ->
  let path := "/tmp/" +:+ format_opt (filename file) in
  audio_path (locals st) = Some path
  /\ exists evs : list event,
       trace (outside st) = (trace s ++ Open path :: evs)%list.
Proof.
  intros H path. unfold transcribe_try in H.
  apply bind_inv in H as [(e & H1 & _) | (st1 & [[audio res] lang] & H1 & H)].
  { apply transcription_stage_any in H1 as (Hp & Hev & _). auto. }
  apply transcription_stage_any in H1 as H1'.
  destruct H1' as (_ & [evs1 Hev1] & _).
  apply transcription_stage_frame in H1 as (_ & _ & Hfr).
  destruct st1 as [o1 fr1]. simpl in Hfr, Hev1. subst fr1.
  destruct (alignment_stage w align audio res lang
              (State o1
                 (Frame (Some path) (Some res)
                    (Some (JSONResponse (spec_text res)
                             (default [] (r_segments res)) lang None None))
                    None None))) as [st2 r2] eqn:H2.
  apply alignment_stage_run in H2 as H2'; [| reflexivity].
  destruct H2' as (evs2 & rd2 & ra & -> & -> & Hseg & _ & Hal & _).
  erewrite bind_inr in H by exact H2.
  destruct (diarization_stage w align diarize audio res
              (State {| fs := fs o1; trace := trace o1 ++ evs2 |}
                 (Frame (Some path) (Some res) (Some rd2) ra None)))
    as [st3 r3] eqn:H3.
  apply diarization_stage_run in H3 as H3'; [| exact Hseg | exact Hal].
  destruct H3' as (evs3 & rd3 & rz & -> & _).
  destruct r3 as [e3 | []].
  - erewrite bind_inl in H by exact H3. simplify_eq. simpl.
    split; [reflexivity |]. rewrite Hev1, <- !app_assoc. simpl.
    eexists. reflexivity.
  - erewrite bind_inr in H by exact H3. unfold_m. simpl in H. simplify_eq.
    simpl. split; [reflexivity |]. rewrite Hev1, <- !app_assoc. simpl.
    eexists. reflexivity.
Qed.

(** The same up to the [finally]. *)
Lemma guarded_run w file align diarize language s st r :
  try_except (transcribe_try w file align diarize language) transcribe_except
    (State s new_frame) = (st, r) ->
  let path := "/tmp/" +:+ format_opt (filename file) in
  audio_path (locals st) = Some path
  /\ exists evs : list event,
       trace (outside st) = (trace s ++ Open path :: evs)%list.
Proof.
  intros H path.
  apply try_except_inv in H as [(a & Hbody & _) | (st0 & e & Hbody & He)].
  - apply transcribe_try_any in Hbody. exact Hbody.
  - apply transcribe_try_any in Hbody as [Hp [evs Hevs]].
    unfold transcribe_except in He. unfold_m. simplify_eq. simpl.
    split; [assumption |].
    rewrite Hevs, <- app_assoc. simpl. eexists. reflexivity.
Qed.

(** The whole request from a fresh frame. *)
Lemma transcribe_request_run w file align diarize language s st r :
  transcribe_request w file align diarize language (State s new_frame)
  = (st, r) ->
  let path := "/tmp/" +:+ format_opt (filename file) in
  (exists evs : list event,
      trace (outside st) = (trace s ++ Open path :: evs)%list)
  /\ (fs (outside st) !! resolve path = None
      \/ exists s0 e, os_remove w s0 path = Some e
           /\ fs s0 = fs (outside st)
           /\ Print ("Warning: Could not remove temporary file: " +:+ str e)
              ∈ trace (outside st)).
Proof.
  intros H path. unfold transcribe_request in H.
  apply try_finally_inv in H as (st1 & r1 & Hbody & Hfin).
  apply guarded_run in Hbody as [Hp [evs Hevs]].
  assert (Hc : exists r', cleanup w st1 = (st, r')).
  { destruct Hfin as [[Hc _] | (e & Hc & _)]; eauto. }
  destruct Hc as [r' Hc]. split.
  - apply cleanup_trace in Hc as [evs' ->].
    rewrite Hevs, <- app_assoc. simpl. eexists. reflexivity.
  - eapply cleanup_removes; [exact Hp | reflexivity | exact Hc].
Qed.

(** ** Independence from the state outside *)

Section Oblivious.
Context {A B : Type}.

Lemma oblivious_ret (a : A) : oblivious (ret a).
Proof. intros st1 st2 H. auto. Qed.

Lemma oblivious_raise (e : exn) : oblivious (@raise A e).
Proof. intros st1 st2 H. auto. Qed.

Lemma oblivious_outcome (r : exn + A) : oblivious (outcome r).
Proof. destruct r; [apply oblivious_raise | apply oblivious_ret]. Qed.

Lemma oblivious_bind (m : M A) (k : A -> M B) :
  oblivious m -> (forall a, oblivious (k a)) -> oblivious (bind m k).
Proof.
  intros Hm Hk st1 st2 H. unfold bind.
  destruct (Hm st1 st2 H) as [Hr Hl].
  destruct (m st1) as [st1' [e1 | a1]], (m st2) as [st2' [e2 | a2]];
    simpl in *; simplify_eq; auto.
  apply Hk. assumption.
Qed.

Lemma oblivious_try_except (m : M A) (h : exn -> M A) :
  oblivious m -> (forall e, oblivious (h e)) -> oblivious (try_except m h).
Proof.
  intros Hm Hh st1 st2 H. unfold try_except.
  destruct (Hm st1 st2 H) as [Hr Hl].
  destruct (m st1) as [st1' [e1 | a1]], (m st2) as [st2' [e2 | a2]];
    simpl in *; simplify_eq; auto.
  apply Hh. assumption.
Qed.

Lemma oblivious_if (b : bool) (m1 m2 : M A) :
  oblivious m1 -> oblivious m2 -> oblivious (if b then m1 else m2).
Proof. destruct b; auto. Qed.

End Oblivious.

Lemma oblivious_emit ev : oblivious (emit ev).
Proof. intros st1 st2 H. auto. Qed.

Lemma oblivious_print line : oblivious (print line).
Proof. apply oblivious_emit. Qed.

Lemma oblivious_get_locals : oblivious get_locals.
Proof. intros st1 st2 H. unfold get_locals. simpl. rewrite H. auto. Qed.

Lemma oblivious_put_locals fr : oblivious (put_locals fr).
Proof. intros st1 st2 H. auto. Qed.

Create HintDb oblivious.
#[local] Hint Resolve oblivious_ret oblivious_raise oblivious_outcome
  oblivious_emit oblivious_print oblivious_get_locals oblivious_put_locals
  : oblivious.
#[local] Hint Extern 2 (oblivious (bind _ _)) =>
  apply oblivious_bind; [| intros ?] : oblivious.
#[local] Hint Extern 2 (oblivious (try_except _ _)) =>
  apply oblivious_try_except; [| intros ?] : oblivious.
#[local] Hint Extern 3 (oblivious (match ?x with _ => _ end)) =>
  destruct x : oblivious.

Ltac oblivious_auto := auto 30 with oblivious.

Lemma oblivious_load {A} name (var : frame -> option A) :
  oblivious (load name var).
Proof. unfold load. oblivious_auto. Qed.

Lemma oblivious_update_response_data f : oblivious (update_response_data f).
Proof.
  unfold update_response_data, store_response_data.
  pose proof (@oblivious_load Response). oblivious_auto.
Qed.

#[local] Hint Resolve oblivious_load oblivious_update_response_data : oblivious.

(** An external call whose answer does not depend on the state outside,
    with what is done with the answer. *)
Lemma oblivious_call {A B} (f : sys -> A) (k : A -> M B) :
  (forall s1 s2, f s1 = f s2) -> (forall a, oblivious (k a)) ->
  oblivious (bind get_sys (fun s => k (f s))).
Proof.
  intros Hf Hk st1 st2 H. unfold bind, get_sys.
  rewrite (Hf (outside st1) (outside st2)). apply Hk. exact H.
Qed.

Section Steady.

Variable w : world.
Hypothesis Hw : steady w.

Lemma oblivious_reclaim : oblivious (reclaim w).
Proof.
  unfold reclaim.
  apply oblivious_bind; [apply oblivious_emit | intros _].
  destruct (String.eqb (DEVICE w) "cuda"); [| apply oblivious_ret].
  apply oblivious_bind; [apply oblivious_emit | intros _].
  apply (oblivious_call (empty_cache w)
           (fun o => match o with Some e => raise e | None => ret tt end)).
  - apply steady_empty_cache, Hw.
  - intros [e |]; oblivious_auto.
Qed.

Lemma oblivious_call_model_transcribe audio batch_size language :
  oblivious (call_model_transcribe w audio batch_size language).
Proof.
  unfold call_model_transcribe.
  apply oblivious_bind; [apply oblivious_emit | intros _].
  apply (oblivious_call
           (fun s => model_transcribe w s audio batch_size language) outcome).
  - intros s1 s2. apply steady_model_transcribe, Hw.
  - apply oblivious_outcome.
Qed.

Lemma oblivious_whisperx_load_align_model language_code device :
  oblivious (whisperx_load_align_model w language_code device).
Proof.
  unfold whisperx_load_align_model.
  apply oblivious_bind; [apply oblivious_emit | intros _].
  apply (oblivious_call
           (fun s => load_align_model w s language_code device) outcome).
  - intros s1 s2. apply steady_load_align_model, Hw.
  - apply oblivious_outcome.
Qed.

Lemma oblivious_whisperx_align segs model_a metadata audio device :
  oblivious (whisperx_align w segs model_a metadata audio device).
Proof.
  unfold whisperx_align.
  apply oblivious_bind; [apply oblivious_emit | intros _].
  apply (oblivious_call
           (fun s => align w s segs model_a metadata audio device) outcome).
  - intros s1 s2. apply steady_align, Hw.
  - apply oblivious_outcome.
Qed.

Lemma oblivious_whisperx_DiarizationPipeline use_auth_token device :
  oblivious (whisperx_DiarizationPipeline w use_auth_token device).
Proof.
  unfold whisperx_DiarizationPipeline.
  apply oblivious_bind; [apply oblivious_emit | intros _].
  apply (oblivious_call
           (fun s => DiarizationPipeline w s use_auth_token device) outcome).
  - intros s1 s2. apply steady_DiarizationPipeline, Hw.
  - apply oblivious_outcome.
Qed.

Lemma oblivious_call_diarize_model pipeline audio :
  oblivious (call_diarize_model w pipeline audio).
Proof.
  unfold call_diarize_model.
  apply oblivious_bind; [apply oblivious_emit | intros _].
  apply (oblivious_call (fun s => diarize_model w s pipeline audio) outcome).
  - intros s1 s2. apply steady_diarize_model, Hw.
  - apply oblivious_outcome.
Qed.

Lemma oblivious_whisperx_assign_word_speakers diarize_segments transcript :
  oblivious (whisperx_assign_word_speakers w diarize_segments transcript).
Proof.
  unfold whisperx_assign_word_speakers.
  apply oblivious_bind; [apply oblivious_emit | intros _].
  apply (oblivious_call
           (fun s => assign_word_speakers w s diarize_segments transcript)
           outcome).
  - intros s1 s2. apply steady_assign_word_speakers, Hw.
  - apply oblivious_outcome.
Qed.

#[local] Hint Resolve oblivious_reclaim oblivious_call_model_transcribe
  oblivious_whisperx_load_align_model oblivious_whisperx_align
  oblivious_whisperx_DiarizationPipeline oblivious_call_diarize_model
  oblivious_whisperx_assign_word_speakers : oblivious.

Lemma oblivious_alignment_stage align audio res lang :
  oblivious (alignment_stage w align audio res lang).
Proof.
  unfold alignment_stage, align_try, getitem_segments, store_result_aligned.
  oblivious_auto.
Qed.

Lemma oblivious_diarization_stage align diarize audio res :
  oblivious (diarization_stage w align diarize audio res).
Proof.
  unfold diarization_stage, diarize_try, store_result_diarized.
  oblivious_auto.
Qed.

(** Saving and decoding the upload: the store is written at the
    temporary path before [load_audio] reads it there, so what follows
    does not depend on what the store held before. *)
Lemma oblivious_upload {A} file (k : object -> M A) :
  (forall audio, oblivious (k audio)) ->
  oblivious
    (let path := "/tmp/" +:+ format_opt (filename file) in
     store_audio_path path ;;;
     open_wb w path ;;;
     data <- file_read file ;;
     f_write w path data ;;;
     print ("Processing file: " +:+ format_opt (filename file)) ;;;
     print "Step 1: Transcribing audio..." ;;;
     audio <- whisperx_load_audio w path ;;
     k audio)%py.
Proof.
  intros Hk st1 st2 H. unfold_m. simpl. rewrite !H.
  match goal with
  | |- context [os_open w ?s1 ?p] =>
      match goal with
      | |- context [os_open w ?s2 p] =>
          assert_fails (constr_eq s1 s2);
          rewrite (steady_os_open w Hw s1 s2 p)
      end
  end.
  destruct (os_open w _ _); simpl; [auto |].
  destruct (read file) as [e | data]; simpl; [auto |].
  match goal with
  | |- context [os_write w ?s1 ?p ?d] =>
      match goal with
      | |- context [os_write w ?s2 p d] =>
          assert_fails (constr_eq s1 s2);
          rewrite (steady_os_write w Hw s1 s2 p d)
      end
  end.
  destruct (os_write w _ _ _); simpl; [auto |].
  rewrite !lookup_insert_eq.
  match goal with
  | |- context [load_audio w ?s1 ?p ?c] =>
      match goal with
      | |- context [load_audio w ?s2 p c] =>
          assert_fails (constr_eq s1 s2);
          rewrite (steady_load_audio w Hw s1 s2 p c)
      end
  end.
  destruct (load_audio w _ _ _); simpl; [auto |].
  apply Hk. reflexivity.
Qed.

Lemma oblivious_transcription_stage file language :
  oblivious (transcription_stage w file language).
Proof.
  unfold transcription_stage. apply @oblivious_upload. intros audio.
  unfold store_result, store_response_data, getitem_segments.
  oblivious_auto.
Qed.

Lemma oblivious_transcribe_try file align diarize language :
  oblivious (transcribe_try w file align diarize language).
Proof.
  unfold transcribe_try.
  apply oblivious_bind; [apply oblivious_transcription_stage |].
  intros [[audio res] lang].
  apply oblivious_bind; [apply oblivious_alignment_stage | intros _].
  apply oblivious_bind; [apply oblivious_diarization_stage | intros _].
  oblivious_auto.
Qed.

(** In a steady world the response does not depend on the state the
    handler is entered with. *)
Lemma transcribe_response_steady file align diarize language s s0 :
  snd (transcribe w file align diarize language s)
  = snd (transcribe w file align diarize language s0).
Proof.
  unfold transcribe.
  destruct (negb (truthy_opt (filename file))); [reflexivity |].
  destruct (diarize && negb (truthy_opt (HF_TOKEN w))); [reflexivity |].
  pose proof (transcribe_request_outcome w file align diarize language
                (State s new_frame)) as H1.
  pose proof (transcribe_request_outcome w file align diarize language
                (State s0 new_frame)) as H2.
  destruct (transcribe_request w file align diarize language (State s new_frame))
    as [st r].
  destruct (transcribe_request w file align diarize language (State s0 new_frame))
    as [st0 r0].
  simpl in *. rewrite H1, H2.
  apply oblivious_try_except.
  - apply oblivious_transcribe_try.
  - intros e. unfold transcribe_except. oblivious_auto.
  - reflexivity.
Qed.

End Steady.

(** ** The loop of the batch handler *)

(** The loop only appends to [results]. *)
Lemma batch_loop_results w files align diarize language results s :
  batch_loop w files align diarize language results s
  = (fst (batch_loop w files align diarize language [] s),
     (results ++ snd (batch_loop w files align diarize language [] s))%list).
Proof.
  revert results s. induction files as [| file files IH]; intros results s.
  - simpl. rewrite app_nil_r. reflexivity.
  - simpl.
    destruct (transcribe w file align diarize language s) as [s' [e | result]];
      rewrite (IH (results ++ _)%list), (IH [_]); simpl;
      rewrite <- app_assoc; reflexivity.
Qed.

(** The loop over two lists, one after the other. *)
Lemma batch_loop_app w files1 files2 align diarize language results s :
  batch_loop w (files1 ++ files2) align diarize language results s
  = batch_loop w files2 align diarize language
      (snd (batch_loop w files1 align diarize language results s))
      (fst (batch_loop w files1 align diarize language results s)).
Proof.
  revert results s. induction files1 as [| file files1 IH]; intros results s.
  - reflexivity.
  - simpl.
    destruct (transcribe w file align diarize language s) as [s' [e | result]];
      apply IH.
Qed.

Lemma batch_loop_length w files align diarize language results s :
  length (snd (batch_loop w files align diarize language results s))
  = (length results + length files)%nat.
Proof.
  revert results s. induction files as [| file files IH]; intros results s.
  - simpl. lia.
  - simpl.
    destruct (transcribe w file align diarize language s) as [s' [e | result]];
      rewrite IH, length_app; simpl; lia.
Qed.

(** The batch handler in terms of its loop. *)
Lemma transcribe_batch_loop w files align diarize language s :
  transcribe_batch w files align diarize language s
  = (fst (batch_loop w files align diarize language [] s),
     inr (snd (batch_loop w files align diarize language [] s))).
Proof.
  unfold transcribe_batch.
  destruct (batch_loop w files align diarize language [] s). reflexivity.
Qed.

(** A batch over two lists of files is the batch over the first, then the
    batch over the second from the state the first has left. *)
Lemma transcribe_batch_app w files1 files2 align diarize language s :
  exists s1 results1 s2 results2,
    transcribe_batch w files1 align diarize language s = (s1, inr results1)
    /\ transcribe_batch w files2 align diarize language s1 = (s2, inr results2)
    /\ transcribe_batch w (files1 ++ files2) align diarize language s
       = (s2, inr (results1 ++ results2)%list).
Proof.
  rewrite !transcribe_batch_loop, batch_loop_app.
  rewrite (batch_loop_results w files2).
  eexists _, _, _, _. split_and!; try reflexivity.
  rewrite transcribe_batch_loop. reflexivity.
Qed.

Lemma entry_filename_entry w align diarize language s0 file :
  entry_filename (entry w align diarize language s0 file) = filename file.
Proof. unfold entry. destruct (snd _); reflexivity. Qed.

Lemma batch_loop_cons w file files align diarize language s :
  snd (batch_loop w (file :: files) align diarize language [] s)
  = entry w align diarize language s file
    :: snd (batch_loop w files align diarize language []
              (fst (transcribe w file align diarize language s))).
Proof.
  simpl. unfold entry.
  destruct (transcribe w file align diarize language s) as [s' [e | result]];
    simpl; rewrite batch_loop_results; reflexivity.
Qed.

(** The entry of the first file, and the state the rest starts from. *)
Lemma transcribe_batch_cons w file files align diarize language s :
  transcribe_batch w (file :: files) align diarize language s
  = (fst (transcribe_batch w files align diarize language
            (fst (transcribe w file align diarize language s))),
     inr (entry w align diarize language s file
          :: snd (batch_loop w files align diarize language []
                    (fst (transcribe w file align diarize language s))))).
Proof.
  rewrite !transcribe_batch_loop. simpl. unfold entry.
  destruct (transcribe w file align diarize language s) as [s' [e | result]];
    simpl; rewrite batch_loop_results; reflexivity.
Qed.


Lemma diarization_failed_detail e :
  "Processing failed: " +:+ str (HTTPException 500 ("Diarization failed: " +:+ str e))
  = "Processing failed: 500: Diarization failed: " +:+ str e.
Proof. reflexivity. Qed.

(** ** The two checks before the [try] *)

(** C5: a request whose upload has no file name ([None] or the empty
    string) is rejected with status 400 and detail "No file provided";
    the state outside is the one the handler was entered with: no file
    was written and no call was made. *)
Theorem transcribe_rejects_missing_filename
    (w : world) (file : UploadFile) (align diarize : bool)
    (language : option string) (s : sys) :
  filename file = None \/ filename file = Some "" ->
  transcribe w file align diarize language s
  = (s, inl (HTTPException 400 "No file provided")).
Proof.
  intros [H | H]; unfold transcribe; rewrite H; reflexivity.
Qed.

Lemma transcribe_rejects_missing_filename_witness :
  transcribe Sample.fine Sample.nameless true false None Sample.empty_sys
  = (Sample.empty_sys, inl (HTTPException 400 "No file provided")).
Proof.
  apply (transcribe_rejects_missing_filename
           Sample.fine Sample.nameless true false None Sample.empty_sys).
  left. reflexivity.
Defined.

(** C4: with [diarize] set and no credential ([HF_TOKEN] unset or empty)
    the request is rejected with status 400, and the state outside is
    untouched: nothing was written and the transcription model was not
    called.  The detail names the credential unless the file name is
    missing too, which is checked first. *)
Theorem transcribe_rejects_diarize_without_token
    (w : world) (file : UploadFile) (align : bool)
    (language : option string) (s : sys) :
  HF_TOKEN w = None \/ HF_TOKEN w = Some "" ->
  transcribe w file align true language s
  = (s, inl (HTTPException 400
               (if truthy_opt (filename file)
                then "Diarization requires HF_TOKEN environment variable to be set"
                else "No file provided"))).
Proof.
  intros H. unfold transcribe.
  destruct (truthy_opt (filename file)); simpl; [| reflexivity].
  destruct H as [-> | ->]; reflexivity.
Qed.

Lemma transcribe_rejects_diarize_without_token_witness :
  transcribe Sample.anonymous Sample.talk true true None Sample.empty_sys
  = (Sample.empty_sys,
     inl (HTTPException 400
            "Diarization requires HF_TOKEN environment variable to be set")).
Proof.
  apply (transcribe_rejects_diarize_without_token
           Sample.anonymous Sample.talk true None Sample.empty_sys).
  left. reflexivity.
Defined.

(** ** The response document *)

(** C8: in every successful response the [text] field is the combined
    text of the transcription model's result when that result supplies
    one (a non-empty [text] entry); otherwise it is the concatenation of
    the texts of the result's segments, each stripped of surrounding
    white space and separated by single spaces ([spec_text]). *)
Theorem response_text
    (w : world) (file : UploadFile) (align diarize : bool)
    (language : option string) (s s' : sys) (resp : Response) :
  transcribe w file align diarize language s = (s', inr resp) ->
  exists audio res,
    (exists s0, model_transcribe w s0 audio BATCH_SIZE language = inr res)
    /\ text resp = spec_text res
    /\ (truthy (default "" (r_text res)) = true ->
        text resp = default "" (r_text res))
    /\ (truthy (default "" (r_text res)) = false ->
        text resp
        = String.concat " "
            (map (fun seg => strip (seg_text seg))
               (default [] (r_segments res)))).
Proof.
  intros H.
  apply transcribe_returns in H as (st & H & _).
  apply transcribe_request_success in H
    as (audio & res & ra & rz & Hm & _ & _ & Htext & _).
  exists audio, res. split_and!; try assumption.
  - intros Ht. rewrite Htext. unfold spec_text. rewrite Ht. reflexivity.
  - intros Ht. rewrite Htext. unfold spec_text. rewrite Ht. reflexivity.
Qed.

Lemma response_text_witness :
  exists audio res,
    (exists s0, model_transcribe Sample.fine s0 audio BATCH_SIZE None = inr res)
    /\ text Sample.aligned_response = spec_text res
    /\ (truthy (default "" (r_text res)) = true ->
        text Sample.aligned_response = default "" (r_text res))
    /\ (truthy (default "" (r_text res)) = false ->
        text Sample.aligned_response
        = String.concat " "
            (map (fun seg => strip (seg_text seg))
               (default [] (r_segments res)))).
Proof.
  apply (response_text Sample.fine Sample.talk true false None Sample.empty_sys
           (fst (transcribe Sample.fine Sample.talk true false None
                   Sample.empty_sys))
           Sample.aligned_response).
  vm_compute. reflexivity.
Defined.

(** C2: in every successful response the [segments] field is the output
    of the most refined stage that ran and succeeded.  A stage ran and
    succeeded exactly when its result variable is bound at the end of the
    request ([result_diarized], [result_aligned], [result]); the field is
    the [segments] of the diarized result if there is one, else of the
    aligned result, else of the raw transcription.  [result_diarized] is
    bound exactly when diarization was requested, [result_aligned] only
    when alignment was, and [result] always, to what the transcription
    model returned. *)
Theorem segments_most_refined
    (w : world) (file : UploadFile) (align diarize : bool)
    (language : option string) (s s' : sys) (resp : Response) :
  transcribe w file align diarize language s = (s', inr resp) ->
  exists audio res st,
    (exists s0, model_transcribe w s0 audio BATCH_SIZE language = inr res)
    /\ transcribe_request w file align diarize language (State s new_frame)
       = (st, inr resp)
    /\ result (locals st) = Some res
    /\ segments resp
       = most_refined (result_diarized (locals st))
           (result_aligned (locals st)) (result (locals st))
    /\ (is_Some (result_diarized (locals st)) <-> diarize = true)
    /\ (is_Some (result_aligned (locals st)) -> align = true).
Proof.
  intros H.
  apply transcribe_returns in H as (st & H & _).
  apply transcribe_request_success in H as H'.
  destruct H' as (audio & res & ra & rz & Hm & Hfr & Hseg & _ & Hrz & Hra).
  exists audio, res, st. rewrite Hfr. simpl. split_and!; done.
Qed.

Lemma segments_most_refined_witness :
  exists audio res st,
    (exists s0, model_transcribe Sample.fine s0 audio BATCH_SIZE None = inr res)
    /\ transcribe_request Sample.fine Sample.talk true true None
         (State Sample.empty_sys new_frame)
       = (st, inr Sample.diarized_response)
    /\ result (locals st) = Some res
    /\ segments Sample.diarized_response
       = most_refined (result_diarized (locals st))
           (result_aligned (locals st)) (result (locals st))
    /\ (is_Some (result_diarized (locals st)) <-> true = true)
    /\ (is_Some (result_aligned (locals st)) -> true = true).
Proof.
  apply (segments_most_refined Sample.fine Sample.talk true true None
           Sample.empty_sys
           (fst (transcribe Sample.fine Sample.talk true true None
                   Sample.empty_sys))
           Sample.diarized_response).
  vm_compute. reflexivity.
Defined.

(** ** Failure of the alignment stage *)

(** C1 (amended): when alignment is requested and diarization is not, and
    the alignment stage raises before it has produced its result
    (loading the alignment model, reading the segments or the [align]
    call raises, so [result_aligned] stays unbound), the request does not
    fail: the handler returns a response whose [segments] are those of
    the unaligned transcription and whose [word_segments] is the empty
    list. *)
Theorem alignment_failure_degrades
    (w : world) (file : UploadFile) (language : option string) (s : sys)
    (st1 st2 : state) (audio : object) (res : ResultDict) (lang : string)
    (e : exn) :
  truthy_opt (filename file) = true ->
  transcription_stage w file language (State s new_frame)
  = (st1, inr (audio, res, lang)) ->
  align_try w audio res lang
    (fst (print "Step 2: Aligning transcription..." st1)) = (st2, inl e) ->
  result_aligned (locals st2) = None ->
  exists resp,
    snd (transcribe w file true false language s) = inr resp
    /\ segments resp = default [] (r_segments res)
    /\ word_segments resp = Some [].
Proof.
  intros Hf H1 H2 Hn.
  pose proof (alignment_stage_unbound _ _ _ _ _ _ _ _ _ _ H1 H2 Hn) as Ha.
  rewrite transcribe_checked by done. cbn [snd].
  rewrite transcribe_request_outcome.
  eexists. split.
  - erewrite try_except_inr; [reflexivity |].
    unfold transcribe_try.
    erewrite bind_inr by exact H1. cbn iota beta.
    erewrite bind_inr by exact Ha.
    reflexivity.
  - split; reflexivity.
Qed.

Lemma alignment_failure_degrades_witness :
  exists resp,
    snd (transcribe Sample.unaligned Sample.talk true false None
           Sample.empty_sys) = inr resp
    /\ segments resp = default [] (r_segments Sample.raw)
    /\ word_segments resp = Some [].
Proof.
  apply (alignment_failure_degrades Sample.unaligned Sample.talk None
           Sample.empty_sys (Sample.transcribed Sample.unaligned)
           (fst (align_try Sample.unaligned Sample.audio Sample.raw "en"
                   (fst (print "Step 2: Aligning transcription..."
                           (Sample.transcribed Sample.unaligned)))))
           Sample.audio Sample.raw "en" Sample.no_align_model).
  - reflexivity.
  - vm_compute. reflexivity.
  - vm_compute. reflexivity.
  - vm_compute. reflexivity.
Defined.

(** C1 as stated fails: with alignment and diarization both requested, a
    credential set, an alignment model that cannot be loaded and a
    diarization pipeline that cannot be built, the alignment stage raises
    and the request fails with status 500. *)
Lemma alignment_failure_then_fatal_diarization :
  transcription_stage Sample.unaligned_bad_token Sample.talk None
    (State Sample.empty_sys new_frame)
  = (Sample.transcribed Sample.unaligned_bad_token,
     inr (Sample.audio, Sample.raw, "en"))
  /\ snd (align_try Sample.unaligned_bad_token Sample.audio Sample.raw "en"
            (fst (print "Step 2: Aligning transcription..."
                    (Sample.transcribed Sample.unaligned_bad_token))))
     = inl Sample.no_align_model
  /\ snd (transcribe Sample.unaligned_bad_token Sample.talk true true None
            Sample.empty_sys)
     = inl (HTTPException 500
              "Processing failed: 500: Diarization failed: Could not download the pipeline: check the token")
  /\ ~ (exists resp,
          snd (transcribe Sample.unaligned_bad_token Sample.talk true true None
                 Sample.empty_sys) = inr resp
          /\ segments resp = default [] (r_segments Sample.raw)
          /\ word_segments resp = Some []).
Proof.
  assert (H : snd (transcribe Sample.unaligned_bad_token Sample.talk true true
                     None Sample.empty_sys)
              = inl (HTTPException 500
                       "Processing failed: 500: Diarization failed: Could not download the pipeline: check the token"))
    by (vm_compute; reflexivity).
  split_and!.
  - vm_compute. reflexivity.
  - vm_compute. reflexivity.
  - exact H.
  - intros (resp & Hr & _). rewrite H in Hr. discriminate.
Qed.

(** C9 (amended): with alignment and diarization both requested and a
    credential set, when the alignment stage raises before
    [result_aligned] is bound, the request fails with status 500.  The
    detail carries the error of the diarization [try]: that of the
    pipeline or of the diarization model when one of them raises, and
    otherwise the unbound local error of reading [result_aligned], which
    was never assigned.  [s_pipeline] and [s_model] are the states in
    which the pipeline is built and run. *)
Theorem unaligned_diarization_fails
    (w : world) (file : UploadFile) (language : option string) (s : sys)
    (st1 st2 : state) (audio : object) (res : ResultDict) (lang : string)
    (e : exn) :
  truthy_opt (filename file) = true ->
  truthy_opt (HF_TOKEN w) = true ->
  transcription_stage w file language (State s new_frame)
  = (st1, inr (audio, res, lang)) ->
  align_try w audio res lang
    (fst (print "Step 2: Aligning transcription..." st1)) = (st2, inl e) ->
  result_aligned (locals st2) = None ->
  let s_pipeline :=
    {| fs := fs (outside st2);
       trace := trace (outside st2)
                ++ [Print ("Alignment warning: " +:+ str e);
                    Print "Step 3: Running diarization...";
                    NewDiarizationPipeline] |} in
  let s_model :=
    {| fs := fs (outside st2);
       trace := trace s_pipeline ++ [DiarizeModel audio] |} in
  snd (transcribe w file true true language s)
  = inl (HTTPException 500
           ("Processing failed: 500: Diarization failed: " +:+
            str match DiarizationPipeline w s_pipeline (HF_TOKEN w) (DEVICE w)
                with
                | inl e1 => e1
                | inr pipeline =>
                    match diarize_model w s_model pipeline audio with
                    | inl e2 => e2
                    | inr _ => UnboundLocalError "result_aligned"
                    end
                end)).
Proof.
  intros Hf Ht H1 H2 Hn s_pipeline s_model.
  pose proof (alignment_stage_unbound _ _ _ _ _ _ _ _ _ _ H1 H2 Hn) as Ha.
  rewrite transcribe_checked by (rewrite ?Ht; done). cbn [snd].
  rewrite transcribe_request_outcome.
  unfold try_except, transcribe_try.
  erewrite bind_inr by exact H1. cbn iota beta.
  erewrite bind_inr by exact Ha.
  subst s_pipeline s_model.
  destruct st2 as [[files2 tr2] fr2].
  unfold diarization_stage, diarize_try. unfold_m. simpl.
  rewrite <- !app_assoc. simpl.
  destruct (DiarizationPipeline w _ (HF_TOKEN w) (DEVICE w)) as [e1 | p]; simpl.
  - reflexivity.
  - rewrite <- !app_assoc. simpl.
    destruct (diarize_model w _ p audio) as [e2 | turns]; reflexivity.
Qed.

Lemma unaligned_diarization_fails_witness :
  snd (transcribe Sample.unaligned Sample.talk true true None Sample.empty_sys)
  = inl (HTTPException 500
           ("Processing failed: 500: Diarization failed: " +:+
            str (UnboundLocalError "result_aligned"))).
Proof.
  apply (unaligned_diarization_fails Sample.unaligned Sample.talk None
           Sample.empty_sys (Sample.transcribed Sample.unaligned)
           (fst (align_try Sample.unaligned Sample.audio Sample.raw "en"
                   (fst (print "Step 2: Aligning transcription..."
                           (Sample.transcribed Sample.unaligned)))))
           Sample.audio Sample.raw "en" Sample.no_align_model).
  - reflexivity.
  - reflexivity.
  - vm_compute. reflexivity.
  - vm_compute. reflexivity.
  - vm_compute. reflexivity.
Defined.

(** C9 as stated fails: the alignment stage can raise after
    [result_aligned] was bound.  On a device whose cache cannot be
    emptied the first time, the [try] of step 2 raises in
    [torch.cuda.empty_cache()], after the [align] call; with diarization
    requested and a credential set, step 3 then finds the aligned result
    and the request succeeds, with an empty [word_segments]. *)
Lemma alignment_raises_after_its_result :
  truthy_opt (HF_TOKEN Edge.flaky_cache) = true
  /\ transcription_stage Edge.flaky_cache Sample.talk None
       (State Sample.empty_sys new_frame)
     = (Sample.transcribed Edge.flaky_cache,
        inr (Sample.audio, Sample.raw, "en"))
  /\ snd (align_try Edge.flaky_cache Sample.audio Sample.raw "en"
            (fst (print "Step 2: Aligning transcription..."
                    (Sample.transcribed Edge.flaky_cache))))
     = inl Edge.cuda_lost
  /\ result_aligned
       (locals
          (fst (align_try Edge.flaky_cache Sample.audio Sample.raw "en"
                  (fst (print "Step 2: Aligning transcription..."
                          (Sample.transcribed Edge.flaky_cache))))))
     = Some Sample.aligned
  /\ snd (transcribe Edge.flaky_cache Sample.talk true true None
            Sample.empty_sys)
     = inr (JSONResponse "Hello there. General Kenobi."
              Sample.diarized_segments "en" (Some [])
              (Some Sample.diarized_segments)).
Proof. split_and!; vm_compute; reflexivity. Qed.

(** ** Failure of the diarization stage *)

(** C6: when the request reaches step 3 and the [try] of the diarization
    stage raises [e], the request fails with status 500, and the detail
    ends with the message of [e]: the [HTTPException] of the stage is
    caught by the outer [except], which puts its text in the detail of
    its own. *)
Theorem diarization_failure_is_fatal
    (w : world) (file : UploadFile) (align : bool) (language : option string)
    (s : sys) (st1 st2 st3 : state) (audio : object) (res : ResultDict)
    (lang : string) (e : exn) :
  truthy_opt (filename file) = true ->
  truthy_opt (HF_TOKEN w) = true ->
  transcription_stage w file language (State s new_frame)
  = (st1, inr (audio, res, lang)) ->
  alignment_stage w align audio res lang st1 = (st2, inr tt) ->
  diarize_try w align audio res
    (fst (print "Step 3: Running diarization..." st2)) = (st3, inl e) ->
  snd (transcribe w file align true language s)
  = inl (HTTPException 500
           ("Processing failed: 500: Diarization failed: " +:+ str e)).
Proof.
  intros Hf Ht H1 H2 H3.
  rewrite transcribe_checked by (rewrite ?Ht; done). cbn [snd].
  rewrite transcribe_request_outcome.
  assert (Hd : diarization_stage w align true audio res st2
               = (fst (print ("Diarization error: " +:+ str e) st3),
                  inl (HTTPException 500 ("Diarization failed: " +:+ str e)))).
  { unfold diarization_stage.
    erewrite bind_inr by apply print_run.
    erewrite try_except_inl by exact H3. reflexivity. }
  assert (Ht' : transcribe_try w file align true language (State s new_frame)
                = (fst (print ("Diarization error: " +:+ str e) st3),
                   inl (HTTPException 500 ("Diarization failed: " +:+ str e)))).
  { unfold transcribe_try.
    erewrite bind_inr by exact H1. cbn iota beta.
    erewrite bind_inr by exact H2.
    erewrite bind_inl by exact Hd. reflexivity. }
  erewrite try_except_inl by exact Ht'.
  unfold transcribe_except. unfold_m. cbn [snd].
  rewrite diarization_failed_detail. reflexivity.
Qed.

Lemma diarization_failure_is_fatal_witness :
  snd (transcribe Sample.undiarized Sample.talk true true None Sample.empty_sys)
  = inl (HTTPException 500
           ("Processing failed: 500: Diarization failed: " +:+
            str Sample.bad_token)).
Proof.
  apply (diarization_failure_is_fatal Sample.undiarized Sample.talk true None
           Sample.empty_sys (Sample.transcribed Sample.undiarized)
           (Sample.after_alignment Sample.undiarized)
           (fst (diarize_try Sample.undiarized true Sample.audio Sample.raw
                   (fst (print "Step 3: Running diarization..."
                           (Sample.after_alignment Sample.undiarized)))))
           Sample.audio Sample.raw "en" Sample.bad_token).
  - reflexivity.
  - reflexivity.
  - vm_compute. reflexivity.
  - vm_compute. reflexivity.
  - vm_compute. reflexivity.
Defined.

(** ** The temporary file *)

(** C3: for every request that passes the two checks, after the request
    the temporary file is absent from the store, whatever the outcome of
    the request, unless [os.remove] itself failed (in a state [s0] with
    the store the request leaves), in which case the failure was printed;
    and the answer to the caller is the same whatever [os.remove] does. *)
Theorem temporary_file_removed
    (w : world) (file : UploadFile) (align diarize : bool)
    (language : option string) (s : sys) :
  truthy_opt (filename file) = true ->
  diarize && negb (truthy_opt (HF_TOKEN w)) = false ->
  let path := "/tmp/" +:+ format_opt (filename file) in
  let s' := fst (transcribe w file align diarize language s) in
  (fs s' !! resolve path = None
   \/ exists s0 e, os_remove w s0 path = Some e
        /\ fs s0 = fs s'
        /\ Print ("Warning: Could not remove temporary file: " +:+ str e)
           ∈ trace s')
  /\ forall rm,
      snd (transcribe (with_os_remove w rm) file align diarize language s)
      = snd (transcribe w file align diarize language s).
Proof.
  intros Hf Hd path s'. split.
  - subst s'. rewrite transcribe_checked by assumption. cbn [fst].
    destruct (transcribe_request w file align diarize language
                (State s new_frame)) as [st r] eqn:E.
    apply transcribe_request_run in E as [_ E]. exact E.
  - intros rm.
    rewrite !transcribe_checked by assumption. cbn [snd].
    rewrite !transcribe_request_outcome. reflexivity.
Qed.

Lemma temporary_file_removed_witness :
  (fs (fst (transcribe Sample.sticky Sample.talk true true None
              Sample.empty_sys)) !! resolve "/tmp/talk.wav" = None
   \/ exists s0 e, os_remove Sample.sticky s0 "/tmp/talk.wav" = Some e
        /\ fs s0
           = fs (fst (transcribe Sample.sticky Sample.talk true true None
                        Sample.empty_sys))
        /\ Print ("Warning: Could not remove temporary file: " +:+ str e)
           ∈ trace (fst (transcribe Sample.sticky Sample.talk true true None
                           Sample.empty_sys)))
  /\ forall rm,
      snd (transcribe (with_os_remove Sample.sticky rm) Sample.talk true true
             None Sample.empty_sys)
      = snd (transcribe Sample.sticky Sample.talk true true None
               Sample.empty_sys).
Proof.
  apply (temporary_file_removed Sample.sticky Sample.talk true true None
           Sample.empty_sys); reflexivity.
Defined.

(** C10: the temporary path is ["/tmp/"] followed by the client's file
    name as it is.  Every request that passes the two checks calls [open]
    with that path, so two requests with the same file name open the same
    path; once the first stage has returned, the store holds the upload
    at the location that path resolves to; and for the file name
    [../etc/passwd] that location is [/etc/passwd], outside [/tmp], where
    the upload is still found after a request whose clean-up failed. *)
Theorem temporary_path_is_client_controlled :
  (forall (w : world) (file : UploadFile) (align diarize : bool)
          (language : option string) (s : sys),
      truthy_opt (filename file) = true ->
      diarize && negb (truthy_opt (HF_TOKEN w)) = false ->
      exists evs : list event,
        trace (fst (transcribe w file align diarize language s))
        = (trace s ++ Open ("/tmp/" +:+ format_opt (filename file)) :: evs)%list)
  /\ (forall (w1 w2 : world) (file1 file2 : UploadFile)
             (align1 align2 : bool) (language1 language2 : option string)
             (s1 s2 : sys),
         filename file1 = filename file2 ->
         truthy_opt (filename file1) = true ->
         exists (path : string) (evs1 evs2 : list event),
           trace (fst (transcribe w1 file1 align1 false language1 s1))
           = (trace s1 ++ Open path :: evs1)%list
           /\ trace (fst (transcribe w2 file2 align2 false language2 s2))
              = (trace s2 ++ Open path :: evs2)%list)
  /\ (forall (w : world) (file : UploadFile) (language : option string)
             (s : sys) (st1 : state) x (data : bytes),
         read file = inr data ->
         transcription_stage w file language (State s new_frame)
         = (st1, inr x) ->
         fs (outside st1) !! resolve ("/tmp/" +:+ format_opt (filename file))
         = Some data)
  /\ (filename Sample.escaping = Some "../etc/passwd"
      /\ resolve ("/tmp/" +:+ "../etc/passwd") = ["etc"; "passwd"]
      /\ under_tmp ["etc"; "passwd"] = false
      /\ fs (fst (transcribe Sample.sticky Sample.escaping true false None
                    Sample.empty_sys)) !! ["etc"; "passwd"]
         = Some Sample.payload).
Proof.
  assert (Hopen : forall w file align diarize language s,
             truthy_opt (filename file) = true ->
             diarize && negb (truthy_opt (HF_TOKEN w)) = false ->
             exists evs : list event,
               trace (fst (transcribe w file align diarize language s))
               = (trace s ++ Open ("/tmp/" +:+ format_opt (filename file))
                    :: evs)%list).
  { intros w file align diarize language s Hf Hd.
    rewrite transcribe_checked by assumption. cbn [fst].
    destruct (transcribe_request w file align diarize language
                (State s new_frame)) as [st r] eqn:E.
    apply transcribe_request_run in E as [E _]. exact E. }
  split_and!.
  - exact Hopen.
  - intros w1 w2 file1 file2 align1 align2 language1 language2 s1 s2 Hsame Hf.
    destruct (Hopen w1 file1 align1 false language1 s1 Hf eq_refl) as [evs1 H1].
    rewrite Hsame in Hf.
    destruct (Hopen w2 file2 align2 false language2 s2 Hf eq_refl) as [evs2 H2].
    rewrite <- Hsame in H2. eauto.
  - intros w file language s st1 x data Hr H.
    apply transcription_stage_any in H as (_ & _ & H). eauto.
  - reflexivity.
  - reflexivity.
  - reflexivity.
  - vm_compute. reflexivity.
Qed.

(** ** POST /transcribe/batch/ *)

(** C7 (amended): the batch handler always returns, and for [N] files
    its [results] are [N] entries in the order of the files.  The entry
    of the file at position [k] is what the single-file handler answers
    for it when it is called after the files before it, in the state
    [s_k] they have left: status "success" with the response when the
    handler returns, status "error" with the text of the exception when
    it raises.  Nothing a file does, failing or not, ends the loop or
    changes the entries collected before it: the first [k] entries are
    the results of the batch over the first [k] files. *)
Theorem batch_collects_every_file
    (w : world) (files : list UploadFile) (align diarize : bool)
    (language : option string) (s : sys) :
  exists s' results,
    transcribe_batch w files align diarize language s = (s', inr results)
    /\ length results = length files
    /\ forall k file, files !! k = Some file ->
         exists s_k entry_k,
           transcribe_batch w (take k files) align diarize language s
           = (s_k, inr (take k results))
           /\ results !! k = Some entry_k
           /\ entry_filename entry_k = filename file
           /\ match snd (transcribe w file align diarize language s_k) with
              | inr result =>
                  status entry_k = "success"
                  /\ entry_k = Success (filename file) result
              | inl e =>
                  status entry_k = "error"
                  /\ entry_k = Error (filename file) (str e)
              end.
Proof.
  rewrite transcribe_batch_loop.
  eexists _, _. split; [reflexivity |]. split; [apply batch_loop_length |].
  intros k file Hk.
  destruct (transcribe_batch_app w (take k files) (file :: drop (S k) files)
              align diarize language s)
    as (s1 & r1 & s2 & r2 & H1 & H2 & H3).
  rewrite take_drop_middle in H3 by exact Hk.
  rewrite transcribe_batch_loop in H3. injection H3 as _ Hres.
  assert (Hlen : length r1 = k).
  { rewrite transcribe_batch_loop in H1. injection H1 as _ <-.
    rewrite batch_loop_length, length_take. simpl.
    apply lookup_lt_Some in Hk. lia. }
  rewrite transcribe_batch_cons in H2. injection H2 as _ Hr2.
  exists s1, (entry w align diarize language s1 file).
  rewrite Hres. split_and!.
  - rewrite take_app_length' by (symmetry; exact Hlen). exact H1.
  - rewrite lookup_app_r by lia.
    rewrite Hlen, Nat.sub_diag, <- Hr2. reflexivity.
  - apply entry_filename_entry.
  - unfold entry.
    destruct (snd (transcribe w file align diarize language s1));
      split; reflexivity.
Qed.

(** C7 as stated fails: the failure of one file can alter the entry of
    another.  The store holds a read-only file at [/tmp/talk.wav], and
    the upload [talk.wav] is sent twice in one batch.  The first request
    cannot open the path and fails, and its [finally] block removes the
    file that was in the way; the second request then succeeds.  Sent
    alone, from the same state, the upload is answered with the error. *)
Lemma batch_entry_altered_by_failure :
  snd (transcribe_batch Edge.read_only [Sample.talk; Sample.talk] true false
         None Edge.occupied)
  = inr [Error (Some "talk.wav")
           "500: Processing failed: [Errno 13] Permission denied: '/tmp/talk.wav'";
         Success (Some "talk.wav") Sample.aligned_response]
  /\ snd (transcribe_batch Edge.read_only [Sample.talk] true false None
            Edge.occupied)
     = inr [Error (Some "talk.wav")
              "500: Processing failed: [Errno 13] Permission denied: '/tmp/talk.wav'"]
  /\ fs (fst (transcribe Edge.read_only Sample.talk true false None
                Edge.occupied)) !! ["tmp"; "talk.wav"]
     = None.
Proof. split_and!; vm_compute; reflexivity. Qed.

(** ** Sample runs *)

Example run_aligned :
  snd (transcribe Sample.fine Sample.talk true false None Sample.empty_sys)
  = inr Sample.aligned_response.
Proof. vm_compute. reflexivity. Qed.

Example run_diarized :
  snd (transcribe Sample.fine Sample.talk true true None Sample.empty_sys)
  = inr Sample.diarized_response.
Proof. vm_compute. reflexivity. Qed.

Example run_degraded :
  snd (transcribe Sample.unaligned Sample.talk true false None Sample.empty_sys)
  = inr Sample.degraded_response.
Proof. vm_compute. reflexivity. Qed.

(** An upload that cannot be read: the file was created by [open], the
    request fails, and the file is removed. *)
Example run_truncated :
  transcribe Sample.fine Sample.truncated true false None Sample.empty_sys
  = ({| fs := ∅;
        trace :=
          [Open "/tmp/cut.wav"; Read;
           Print "Error processing file: client closed the connection";
           Remove "/tmp/cut.wav";
           Print "Cleaned up temporary file: /tmp/cut.wav"] |},
     inl (HTTPException 500
            "Processing failed: client closed the connection")).
Proof. vm_compute. reflexivity. Qed.

(** The trace of a request in which the alignment model cannot be loaded
    and diarization is requested: [assign_word_speakers] is never
    called. *)
Example run_unaligned_diarize :
  trace (fst (transcribe Sample.unaligned Sample.talk true true None
                Sample.empty_sys))
  = [Open "/tmp/talk.wav"; Read; Write "/tmp/talk.wav" Sample.payload;
     Print "Processing file: talk.wav";
     Print "Step 1: Transcribing audio...";
     LoadAudio "/tmp/talk.wav"; ModelTranscribe Sample.audio None;
     Print "Detected language: en";
     Print "Step 2: Aligning transcription...";
     LoadAlignModel "en";
     Print "Alignment warning: No default align-model for language: en";
     Print "Step 3: Running diarization...";
     NewDiarizationPipeline; DiarizeModel Sample.audio;
     Print "Diarization error: cannot access local variable 'result_aligned' where it is not associated with a value";
     Print "Error processing file: 500: Diarization failed: cannot access local variable 'result_aligned' where it is not associated with a value";
     Remove "/tmp/talk.wav";
     Print "Cleaned up temporary file: /tmp/talk.wav"].
Proof. vm_compute. reflexivity. Qed.

Example run_batch :
  snd (transcribe_batch Sample.fine
         [Sample.talk; Sample.nameless; Sample.truncated; Sample.talk]
         true false None Sample.empty_sys)
  = inr [Success (Some "talk.wav") Sample.aligned_response;
         Error None "400: No file provided";
         Error (Some "cut.wav")
           "500: Processing failed: client closed the connection";
         Success (Some "talk.wav") Sample.aligned_response].
Proof. vm_compute. reflexivity. Qed.

Example strip_sample : strip "  General Kenobi. " = "General Kenobi.".
Proof. reflexivity. Qed.

Example resolve_sample :
  resolve "/tmp/a/../../x/./y//z" = ["x"; "y"; "z"]
  /\ resolve "/tmp/talk.wav" = ["tmp"; "talk.wav"]
  /\ under_tmp (resolve "/tmp/talk.wav") = true.
Proof. repeat split. Qed.

(** * Further properties *)

(** ** How a request can fail *)

(** Once the checks pass, the only exception that leaves the handler is
    the one of the outer [except]. *)
Lemma transcribe_request_error w file align diarize language st st' e :
  transcribe_request w file align diarize language st = (st', inl e) ->
  exists e', e = HTTPException 500 ("Processing failed: " +:+ str e').
Proof.
  intros H.
  pose proof (transcribe_request_outcome w file align diarize language st) as Ho.
  rewrite H in Ho. cbn [snd] in Ho.
  destruct (try_except _ _ st) as [st1 r1] eqn:E. cbn [snd] in Ho. subst r1.
  apply try_except_inv in E as [(a & _ & ?) | (st0 & e' & _ & He)];
    [discriminate |].
  apply transcribe_except_raises in He as [He _]. inversion He. eauto.
Qed.

Lemma transcribe_error_shape w file align diarize language s s' e :
  transcribe w file align diarize language s = (s', inl e) ->
  (s' = s /\ (e = HTTPException 400 "No file provided"
              \/ e = HTTPException 400
                       "Diarization requires HF_TOKEN environment variable to be set"))
  \/ (checked w file diarize = true
      /\ exists e', e = HTTPException 500 ("Processing failed: " +:+ str e')).
Proof.
  unfold transcribe, checked.
  destruct (truthy_opt (filename file)); simpl.
  2: { intros H. inversion H. left. auto. }
  destruct (diarize && negb (truthy_opt (HF_TOKEN w))); simpl.
  { intros H. inversion H. left. auto. }
  destruct (transcribe_request _ _ _ _ _ _) as [st r] eqn:E.
  intros H. inversion H; subst. right. split; [reflexivity |].
  eapply transcribe_request_error. exact E.
Qed.

(** X1: the handler raises nothing but its own [HTTPException]s: status 400
    from one of the two checks, with the state outside untouched, or
    status 500 with a detail that starts with "Processing failed: ". *)
Theorem transcribe_fails_with_400_or_500
    (w : world) (file : UploadFile) (align diarize : bool)
    (language : option string) (s s' : sys) (e : exn) :
  transcribe w file align diarize language s = (s', inl e) ->
  (s' = s /\ (e = HTTPException 400 "No file provided"
              \/ e = HTTPException 400
                       "Diarization requires HF_TOKEN environment variable to be set"))
  \/ (checked w file diarize = true
      /\ exists e', e = HTTPException 500 ("Processing failed: " +:+ str e')).
Proof. apply transcribe_error_shape. Qed.

Lemma transcribe_fails_with_400_or_500_witness :
  (fst (transcribe Sample.fine Sample.truncated true false None Sample.empty_sys)
   = Sample.empty_sys
   /\ (HTTPException 500 "Processing failed: client closed the connection"
       = HTTPException 400 "No file provided"
       \/ HTTPException 500 "Processing failed: client closed the connection"
          = HTTPException 400
              "Diarization requires HF_TOKEN environment variable to be set"))
  \/ (checked Sample.fine Sample.truncated false = true
      /\ exists e',
          HTTPException 500 "Processing failed: client closed the connection"
          = HTTPException 500 ("Processing failed: " +:+ str e')).
Proof.
  apply (transcribe_fails_with_400_or_500 Sample.fine Sample.truncated true
           false None Sample.empty_sys).
  vm_compute. reflexivity.
Defined.

(** ** The other fields of the response *)

Lemma alignment_stage_fields w align audio res lang o p rd st' r :
  alignment_stage w align audio res lang
    (State o (Frame p (Some res) (Some rd) None None)) = (st', r) ->
  forall rd', response_data (locals st') = Some rd' ->
    language rd' = language rd
    /\ diarization rd' = diarization rd
    /\ (if align
        then exists ws, word_segments rd' = Some ws
               /\ (ws = []
                   \/ exists a, result_aligned (locals st') = Some a
                        /\ ws = default [] (r_word_segments a))
        else word_segments rd' = word_segments rd).
Proof.
  unfold alignment_stage, align_try. unfold_m. intros H rd' Hrd'.
  run; split_and!; simplify_eq; try reflexivity.
  all: eexists; split; [reflexivity |].
  all: first [left; reflexivity | right; eauto].
Qed.

Lemma diarization_stage_fields w align diarize audio res o p rd ra st' :
  diarization_stage w align diarize audio res
    (State o (Frame p (Some res) (Some rd) ra None)) = (st', inr tt) ->
  forall rd', response_data (locals st') = Some rd' ->
    language rd' = language rd
    /\ word_segments rd' = word_segments rd
    /\ (if diarize
        then exists d, result_diarized (locals st') = Some d
               /\ diarization rd' = Some (default [] (r_segments d))
               /\ (forall x, r_segments d = Some x -> segments rd' = x)
        else diarization rd' = diarization rd).
Proof.
  unfold diarization_stage, diarize_try. unfold_m. intros H rd' Hrd'.
  run; split_and!; simplify_eq; try reflexivity.
  all: eexists; split_and!; try reflexivity.
  all: intros x Hx; simpl; rewrite Hx; reflexivity.
Qed.

(** The frame and the fields of a request that succeeds. *)
Lemma transcribe_request_fields w file align diarize language_ s st resp :
  transcribe_request w file align diarize language_ (State s new_frame)
  = (st, inr resp) ->
  exists audio res,
    (exists s0, model_transcribe w s0 audio BATCH_SIZE language_ = inr res)
    /\ response_data (locals st) = Some resp
    /\ language resp = default "unknown" (r_language res)
    /\ (if align
        then exists ws, word_segments resp = Some ws
               /\ (ws = []
                   \/ exists a, result_aligned (locals st) = Some a
                        /\ ws = default [] (r_word_segments a))
        else word_segments resp = None)
    /\ (if diarize
        then exists d, result_diarized (locals st) = Some d
               /\ diarization resp = Some (default [] (r_segments d))
               /\ (forall x, r_segments d = Some x -> segments resp = x)
        else diarization resp = None).
Proof.
  unfold transcribe_request. intros H.
  apply try_finally_inv in H as (st1 & r1 & Hbody & [[Hc <-] | (e & Hc & ?)]);
    [| apply cleanup_run in Hc as [? _]; congruence].
  apply cleanup_run in Hc as [_ ->].
  apply try_except_inv in Hbody as [(a & Hbody & Ha) | (st0 & e & _ & He)];
    [| apply transcribe_except_raises in He as [? _]; congruence].
  inversion Ha; subst a; clear Ha.
  unfold transcribe_try in Hbody.
  apply bind_inv in Hbody
    as [(e & _ & ?) | (st2 & [[audio res] lang] & H1 & Hbody)];
    [congruence |].
  apply transcription_stage_frame in H1 as H1'.
  destruct H1' as (Hmodel & Hlang & Hfr).
  destruct st2 as [o fr]. simpl in Hfr. subst fr.
  apply bind_inv in Hbody as [(e & _ & ?) | (st3 & [] & H2 & Hbody)];
    [congruence |].
  apply alignment_stage_run in H2 as H2'; [| reflexivity].
  destruct H2' as (evs & rd2 & ra & _ & -> & Hseg & _ & Hal & _).
  pose proof (alignment_stage_fields _ _ _ _ _ _ _ _ _ _ H2 rd2 eq_refl)
    as (Hl2 & Hd2 & Hw2).
  apply bind_inv in Hbody as [(e & _ & ?) | (st4 & [] & H3 & Hbody)];
    [congruence |].
  apply diarization_stage_run in H3 as H3'; [| exact Hseg | exact Hal].
  destruct H3' as (evs' & rd3 & rz & -> & _).
  pose proof (diarization_stage_fields _ _ _ _ _ _ _ _ _ _ H3 rd3 eq_refl)
    as (Hl3 & Hw3 & Hd3).
  unfold_m. simpl in Hbody. inversion Hbody; subst. simpl in *.
  exists audio, res. split_and!; try done.
  - rewrite Hl3, Hl2. reflexivity.
  - rewrite Hw3. destruct align; assumption.
  - destruct diarize; [assumption | congruence].
Qed.

(** X2: in a successful response, [word_segments] is present exactly when
    alignment was requested and [diarization] exactly when diarization
    was. *)
Theorem optional_fields_follow_flags
    (w : world) (file : UploadFile) (align diarize : bool)
    (language : option string) (s s' : sys) (resp : Response) :
  transcribe w file align diarize language s = (s', inr resp) ->
  (is_Some (word_segments resp) <-> align = true)
  /\ (is_Some (diarization resp) <-> diarize = true).
Proof.
  intros H. apply transcribe_returns in H as (st & H & _).
  apply transcribe_request_fields in H as (audio & res & _ & _ & _ & Hw & Hd).
  split.
  - destruct align.
    + destruct Hw as (ws & -> & _). split; eauto.
    + rewrite Hw. split; [intros [? ?]; discriminate | discriminate].
  - destruct diarize.
    + destruct Hd as (d & _ & -> & _). split; eauto.
    + rewrite Hd. split; [intros [? ?]; discriminate | discriminate].
Qed.

Lemma optional_fields_follow_flags_witness :
  (is_Some (word_segments Sample.aligned_response) <-> true = true)
  /\ (is_Some (diarization Sample.aligned_response) <-> false = true).
Proof.
  apply (optional_fields_follow_flags Sample.fine Sample.talk true false None
           Sample.empty_sys
           (fst (transcribe Sample.fine Sample.talk true false None
                   Sample.empty_sys))
           Sample.aligned_response).
  vm_compute. reflexivity.
Defined.

(** X3: the [language] of a successful response is the one the transcription
    model reports, or "unknown" when it reports none; the [language]
    parameter of the request only reaches the model. *)
Theorem response_language
    (w : world) (file : UploadFile) (align diarize : bool)
    (language_ : option string) (s s' : sys) (resp : Response) :
  transcribe w file align diarize language_ s = (s', inr resp) ->
  exists audio res,
    (exists s0, model_transcribe w s0 audio BATCH_SIZE language_ = inr res)
    /\ language resp = default "unknown" (r_language res).
Proof.
  intros H. apply transcribe_returns in H as (st & H & _).
  apply transcribe_request_fields in H as (audio & res & Hm & _ & Hl & _).
  eauto.
Qed.

Lemma response_language_witness :
  exists audio res,
    (exists s0,
        model_transcribe Sample.fine s0 audio BATCH_SIZE (Some "fr") = inr res)
    /\ language Sample.aligned_response = default "unknown" (r_language res).
Proof.
  apply (response_language Sample.fine Sample.talk true false (Some "fr")
           Sample.empty_sys
           (fst (transcribe Sample.fine Sample.talk true false (Some "fr")
                   Sample.empty_sys))
           Sample.aligned_response).
  vm_compute. reflexivity.
Defined.

(** X4: when diarization was requested, the [diarization] field of a
    successful response holds the segments of the diarized result, or
    the empty list when that result has none; in the first case the
    [segments] field holds the same list. *)
Theorem diarization_field_repeats_segments
    (w : world) (file : UploadFile) (align : bool)
    (language : option string) (s s' : sys) (resp : Response) :
  transcribe w file align true language s = (s', inr resp) ->
  exists st d,
    transcribe_request w file align true language (State s new_frame)
    = (st, inr resp)
    /\ result_diarized (locals st) = Some d
    /\ diarization resp = Some (default [] (r_segments d))
    /\ (is_Some (r_segments d) -> diarization resp = Some (segments resp)).
Proof.
  intros H. apply transcribe_returns in H as (st & H & _).
  apply transcribe_request_fields in H as H'.
  destruct H' as (audio & res & _ & _ & _ & _ & d & Hd & Hdia & Hseg).
  exists st, d. split_and!; try assumption.
  intros [x Hx]. rewrite Hdia, Hx, (Hseg x Hx). reflexivity.
Qed.

Lemma diarization_field_repeats_segments_witness :
  exists st d,
    transcribe_request Sample.fine Sample.talk true true None
      (State Sample.empty_sys new_frame)
    = (st, inr Sample.diarized_response)
    /\ result_diarized (locals st) = Some d
    /\ diarization Sample.diarized_response = Some (default [] (r_segments d))
    /\ (is_Some (r_segments d) ->
        diarization Sample.diarized_response
        = Some (segments Sample.diarized_response)).
Proof.
  apply (diarization_field_repeats_segments Sample.fine Sample.talk true None
           Sample.empty_sys
           (fst (transcribe Sample.fine Sample.talk true true None
                   Sample.empty_sys))).
  vm_compute. reflexivity.
Defined.

(** ** Which calls a request makes *)

Section Emits.
Context {A B : Type} (P : event -> Prop).

Lemma emits_ret (a : A) : emits P (ret a).
Proof.
  intros st st' r H. inversion H; subst. exists []. rewrite app_nil_r. auto.
Qed.

Lemma emits_raise (e : exn) : emits P (@raise A e).
Proof.
  intros st st' r H. inversion H; subst. exists []. rewrite app_nil_r. auto.
Qed.

Lemma emits_outcome (r : exn + A) : emits P (outcome r).
Proof. destruct r; [apply emits_raise | apply emits_ret]. Qed.

Lemma emits_bind (m : M A) (k : A -> M B) :
  emits P m -> (forall a, emits P (k a)) -> emits P (bind m k).
Proof.
  intros Hm Hk st st' r H.
  apply bind_inv in H as [(e & H & _) | (st1 & a & H1 & H2)].
  - eapply Hm. exact H.
  - apply Hm in H1 as (evs1 & E1 & F1). apply Hk in H2 as (evs2 & E2 & F2).
    exists (evs1 ++ evs2)%list. rewrite E2, E1, app_assoc. split; [reflexivity |].
    apply Forall_app. auto.
Qed.

Lemma emits_try_except (m : M A) (h : exn -> M A) :
  emits P m -> (forall e, emits P (h e)) -> emits P (try_except m h).
Proof.
  intros Hm Hh st st' r H.
  apply try_except_inv in H as [(a & H & _) | (st1 & e & H1 & H2)].
  - eapply Hm. exact H.
  - apply Hm in H1 as (evs1 & E1 & F1). apply Hh in H2 as (evs2 & E2 & F2).
    exists (evs1 ++ evs2)%list. rewrite E2, E1, app_assoc. split; [reflexivity |].
    apply Forall_app. auto.
Qed.

Lemma emits_try_finally (m : M A) (final : M unit) :
  emits P m -> emits P final -> emits P (try_finally m final).
Proof.
  intros Hm Hf st st' r H.
  apply try_finally_inv in H as (st1 & r1 & H1 & H2).
  apply Hm in H1 as (evs1 & E1 & F1).
  assert (Hfin : exists r', final st1 = (st', r')).
  { destruct H2 as [[H2 _] | (e & H2 & _)]; eauto. }
  destruct Hfin as [r' Hfin]. apply Hf in Hfin as (evs2 & E2 & F2).
  exists (evs1 ++ evs2)%list. rewrite E2, E1, app_assoc. split; [reflexivity |].
  apply Forall_app. auto.
Qed.

Lemma emits_emit (ev : event) : P ev -> emits P (emit ev).
Proof.
  intros HP st st' r H. inversion H; subst. simpl. exists [ev]. auto.
Qed.

End Emits.

Lemma emits_get_sys P : emits P get_sys.
Proof.
  intros st st' r H. inversion H; subst. exists []. rewrite app_nil_r. auto.
Qed.

Lemma emits_get_fs P : emits P get_fs.
Proof.
  intros st st' r H. inversion H; subst. exists []. rewrite app_nil_r. auto.
Qed.

Lemma emits_put_fs P files : emits P (put_fs files).
Proof.
  intros st st' r H. inversion H; subst. exists []. simpl.
  rewrite app_nil_r. auto.
Qed.

Lemma emits_get_locals P : emits P get_locals.
Proof.
  intros st st' r H. inversion H; subst. exists []. rewrite app_nil_r. auto.
Qed.

Lemma emits_put_locals P fr : emits P (put_locals fr).
Proof.
  intros st st' r H. inversion H; subst. exists []. simpl.
  rewrite app_nil_r. auto.
Qed.

Create HintDb emits.
#[local] Hint Resolve emits_ret emits_raise emits_outcome emits_get_sys
  emits_get_fs emits_put_fs emits_get_locals emits_put_locals : emits.
#[local] Hint Extern 2 (emits _ (bind _ _)) =>
  apply emits_bind; [| intros ?] : emits.
#[local] Hint Extern 2 (emits _ (try_except _ _)) =>
  apply emits_try_except; [| intros ?] : emits.
#[local] Hint Extern 2 (emits _ (try_finally _ _)) =>
  apply emits_try_finally : emits.
#[local] Hint Extern 2 (emits _ (emit _)) =>
  apply emits_emit; reflexivity : emits.
#[local] Hint Extern 3 (emits _ (match ?x with _ => _ end)) =>
  destruct x : emits.

(** Unfold a request down to the statements the rules know. *)
Ltac unfold_request :=
  unfold transcribe_request, transcribe_try, transcribe_except, cleanup,
    transcription_stage, alignment_stage, align_try, diarization_stage,
    diarize_try, update_response_data, load,
    store_audio_path, store_result, store_response_data, store_result_aligned,
    store_result_diarized, open_wb, file_read, f_write, os_path_exists, remove,
    whisperx_load_audio, call_model_transcribe, whisperx_load_align_model,
    whisperx_align, whisperx_DiarizationPipeline, call_diarize_model,
    whisperx_assign_word_speakers, reclaim, getitem_segments, print.

Lemma emits_request_unaligned w file diarize language :
  emits (fun ev => is_alignment_call ev = false)
    (transcribe_request w file false diarize language).
Proof. unfold_request. auto 60 with emits. Qed.

Lemma emits_request_undiarized w file align language :
  emits (fun ev => is_diarization_call ev = false)
    (transcribe_request w file align false language).
Proof. unfold_request. auto 60 with emits. Qed.

(** What a handler adds to the trace when it is the request run from a
    fresh frame. *)
Lemma transcribe_emits P w file align diarize language s :
  emits P (transcribe_request w file align diarize language) ->
  exists evs : list event,
    trace (fst (transcribe w file align diarize language s))
    = (trace s ++ evs)%list
    /\ Forall P evs.
Proof.
  intros H. unfold transcribe.
  destruct (negb (truthy_opt (filename file)));
    [exists []; rewrite app_nil_r; auto |].
  destruct (diarize && negb (truthy_opt (HF_TOKEN w)));
    [exists []; rewrite app_nil_r; auto |].
  destruct (transcribe_request _ _ _ _ _ _) as [st r] eqn:E.
  apply H in E. exact E.
Qed.

(** X5: without [align], a request never loads an alignment model and never
    calls [align]. *)
Theorem no_alignment_call_unless_requested
    (w : world) (file : UploadFile) (diarize : bool)
    (language : option string) (s : sys) :
  exists evs : list event,
    trace (fst (transcribe w file false diarize language s))
    = (trace s ++ evs)%list
    /\ Forall (fun ev => is_alignment_call ev = false) evs.
Proof. apply transcribe_emits, emits_request_unaligned. Qed.

(** X6: without [diarize], a request never builds the diarization pipeline,
    never runs it and never calls [assign_word_speakers]. *)
Theorem no_diarization_call_unless_requested
    (w : world) (file : UploadFile) (align : bool)
    (language : option string) (s : sys) :
  exists evs : list event,
    trace (fst (transcribe w file align false language s))
    = (trace s ++ evs)%list
    /\ Forall (fun ev => is_diarization_call ev = false) evs.
Proof. apply transcribe_emits, emits_request_undiarized. Qed.

(** X7: with no credential ([HF_TOKEN] unset or empty) no request, whatever
    its parameters, makes a call of the diarization stage. *)
Theorem no_diarization_call_without_token
    (w : world) (file : UploadFile) (align diarize : bool)
    (language : option string) (s : sys) :
  truthy_opt (HF_TOKEN w) = false ->
  exists evs : list event,
    trace (fst (transcribe w file align diarize language s))
    = (trace s ++ evs)%list
    /\ Forall (fun ev => is_diarization_call ev = false) evs.
Proof.
  intros Ht. destruct diarize.
  - unfold transcribe. rewrite Ht. simpl.
    destruct (negb (truthy_opt (filename file)));
      exists []; rewrite app_nil_r; auto.
  - apply transcribe_emits, emits_request_undiarized.
Qed.

Lemma no_diarization_call_without_token_witness :
  exists evs : list event,
    trace (fst (transcribe Sample.anonymous Sample.talk true true None
                  Sample.empty_sys))
    = (trace Sample.empty_sys ++ evs)%list
    /\ Forall (fun ev => is_diarization_call ev = false) evs.
Proof.
  apply (no_diarization_call_without_token Sample.anonymous Sample.talk true
           true None Sample.empty_sys).
  reflexivity.
Defined.

(** ** The paths a request names *)

Section Confined.
Context {A B : Type} (path : string).

Lemma confined_ret (a : A) : confined path (ret a).
Proof.
  intros st st' r H Hok. inversion H; subst. split; [assumption |].
  exists []. rewrite app_nil_r. auto.
Qed.

Lemma confined_raise (e : exn) : confined path (@raise A e).
Proof.
  intros st st' r H Hok. inversion H; subst. split; [assumption |].
  exists []. rewrite app_nil_r. auto.
Qed.

Lemma confined_outcome (r : exn + A) : confined path (outcome r).
Proof. destruct r; [apply confined_raise | apply confined_ret]. Qed.

Lemma confined_bind (m : M A) (k : A -> M B) :
  confined path m -> (forall a, confined path (k a)) ->
  confined path (bind m k).
Proof.
  intros Hm Hk st st' r H Hok.
  apply bind_inv in H as [(e & H & _) | (st1 & a & H1 & H2)].
  - eapply Hm; eassumption.
  - destruct (Hm _ _ _ H1 Hok) as (Hok1 & evs1 & E1 & F1).
    destruct (Hk _ _ _ _ H2 Hok1) as (Hok2 & evs2 & E2 & F2).
    split; [assumption |]. exists (evs1 ++ evs2)%list.
    rewrite E2, E1, app_assoc. split; [reflexivity |].
    apply Forall_app. auto.
Qed.

Lemma confined_try_except (m : M A) (h : exn -> M A) :
  confined path m -> (forall e, confined path (h e)) ->
  confined path (try_except m h).
Proof.
  intros Hm Hh st st' r H Hok.
  apply try_except_inv in H as [(a & H & _) | (st1 & e & H1 & H2)].
  - eapply Hm; eassumption.
  - destruct (Hm _ _ _ H1 Hok) as (Hok1 & evs1 & E1 & F1).
    destruct (Hh _ _ _ _ H2 Hok1) as (Hok2 & evs2 & E2 & F2).
    split; [assumption |]. exists (evs1 ++ evs2)%list.
    rewrite E2, E1, app_assoc. split; [reflexivity |].
    apply Forall_app. auto.
Qed.

Lemma confined_try_finally (m : M A) (final : M unit) :
  confined path m -> confined path final ->
  confined path (try_finally m final).
Proof.
  intros Hm Hf st st' r H Hok.
  apply try_finally_inv in H as (st1 & r1 & H1 & H2).
  destruct (Hm _ _ _ H1 Hok) as (Hok1 & evs1 & E1 & F1).
  assert (Hfin : exists r', final st1 = (st', r')).
  { destruct H2 as [[H2 _] | (e & H2 & _)]; eauto. }
  destruct Hfin as [r' Hfin].
  destruct (Hf _ _ _ Hfin Hok1) as (Hok2 & evs2 & E2 & F2).
  split; [assumption |]. exists (evs1 ++ evs2)%list.
  rewrite E2, E1, app_assoc. split; [reflexivity |].
  apply Forall_app. auto.
Qed.

Lemma confined_emit (ev : event) :
  names_only path ev -> confined path (emit ev).
Proof.
  intros Hev st st' r H Hok. inversion H; subst. split; [assumption |].
  exists [ev]. auto.
Qed.

End Confined.

(** A statement that leaves the state as it is. *)
Lemma confined_reads {A} path (f : state -> A) :
  confined path (fun st => (st, inr (f st))).
Proof.
  intros st st' r H Hok. inversion H; subst. split; [assumption |].
  exists []. rewrite app_nil_r. auto.
Qed.

Lemma confined_put_fs path files : confined path (put_fs files).
Proof.
  intros st st' r H Hok. inversion H; subst. split; [assumption |].
  exists []. simpl. rewrite app_nil_r. auto.
Qed.

(** Writing a frame whose [audio_path] is the current one. *)
Lemma confined_keep path (f : frame -> frame) :
  (forall fr, audio_path (f fr) = audio_path fr) ->
  confined path (bind get_locals (fun fr => put_locals (f fr))).
Proof.
  intros Hf st st' r H Hok. inversion H; subst.
  unfold audio_ok in *. simpl. rewrite Hf. split; [assumption |].
  exists []. rewrite app_nil_r. auto.
Qed.

Lemma confined_store_audio_path path : confined path (store_audio_path path).
Proof.
  intros st st' r H Hok. inversion H; subst. unfold audio_ok. simpl.
  split; [auto |]. exists []. rewrite app_nil_r. auto.
Qed.

Create HintDb confined.
#[local] Hint Resolve confined_ret confined_raise confined_outcome
  confined_put_fs confined_store_audio_path : confined.
#[local] Hint Extern 1 (confined _ get_sys) =>
  apply (confined_reads _ outside) : confined.
#[local] Hint Extern 1 (confined _ get_fs) =>
  apply (confined_reads _ (fun st => fs (outside st))) : confined.
#[local] Hint Extern 1 (confined _ get_locals) =>
  apply (confined_reads _ locals) : confined.
#[local] Hint Extern 1 (confined _ (emit _)) =>
  apply confined_emit; first [reflexivity | exact I] : confined.
#[local] Hint Extern 1 (confined _ (bind get_locals (fun _ => put_locals _))) =>
  apply confined_keep; intros ?; reflexivity : confined.
#[local] Hint Extern 2 (confined _ (bind _ _)) =>
  apply confined_bind; [| intros ?] : confined.
#[local] Hint Extern 2 (confined _ (try_except _ _)) =>
  apply confined_try_except; [| intros ?] : confined.
#[local] Hint Extern 3 (confined _ (match ?x with _ => _ end)) =>
  destruct x : confined.

(** The [finally] block names the path that [audio_path] holds. *)
Lemma confined_cleanup w path : confined path (cleanup w).
Proof.
  intros st st' r H Hok. unfold cleanup in H.
  apply bind_inv in H as [(e & H & _) | (st1 & fr & H1 & H2)];
    [inversion H |].
  inversion H1; subst st1 fr. clear H1.
  destruct Hok as [Hp | Hp].
  - rewrite Hp in H2. simpl in H2. inversion H2; subst.
    split; [left; assumption |]. exists []. rewrite app_nil_r. auto.
  - rewrite Hp in H2. simpl in H2.
    assert (Hc : confined path
                   (if truthy path
                    then there <- os_path_exists path ;;
                         if there
                         then try_except
                                (remove w path ;;;
                                 print ("Cleaned up temporary file: " +:+ path))
                                (fun e =>
                                   print ("Warning: Could not remove temporary file: "
                                          +:+ str e))
                         else ret tt
                    else ret tt)%py).
    { unfold os_path_exists, remove, print. auto 30 with confined. }
    eapply Hc; [exact H2 | right; assumption].
Qed.

Lemma confined_request w file align diarize language :
  confined (temporary_path file)
    (transcribe_request w file align diarize language).
Proof.
  unfold transcribe_request.
  apply confined_try_finally; [| apply confined_cleanup].
  unfold temporary_path, transcribe_try, transcribe_except,
    transcription_stage, alignment_stage, align_try, diarization_stage,
    diarize_try, update_response_data, load, store_result,
    store_response_data, store_result_aligned, store_result_diarized,
    open_wb, file_read, f_write, whisperx_load_audio, call_model_transcribe,
    whisperx_load_align_model, whisperx_align, whisperx_DiarizationPipeline,
    call_diarize_model, whisperx_assign_word_speakers, reclaim,
    getitem_segments, print.
  cbv zeta.
  auto 80 with confined.
Qed.

(** X8: the only path a request hands to the operating system and to
    whisperx is its temporary path: every [open], [write], [load_audio]
    and [os.remove] of the request, whatever its outcome, names
    ["/tmp/"] followed by the file name of the upload. *)
Theorem request_names_only_temporary_path
    (w : world) (file : UploadFile) (align diarize : bool)
    (language : option string) (s : sys) :
  exists evs : list event,
    trace (fst (transcribe w file align diarize language s))
    = (trace s ++ evs)%list
    /\ Forall (names_only (temporary_path file)) evs.
Proof.
  unfold transcribe.
  destruct (negb (truthy_opt (filename file)));
    [exists []; rewrite app_nil_r; auto |].
  destruct (diarize && negb (truthy_opt (HF_TOKEN w)));
    [exists []; rewrite app_nil_r; auto |].
  destruct (transcribe_request _ _ _ _ _ _) as [st r] eqn:E.
  pose proof (confined_request w file align diarize language _ _ _ E) as Hc.
  destruct Hc as [_ Hc]; [left; reflexivity |].
  exact Hc.
Qed.

Lemma checked_true w file diarize :
  checked w file diarize = true ->
  truthy_opt (filename file) = true
  /\ diarize && negb (truthy_opt (HF_TOKEN w)) = false.
Proof.
  unfold checked. intros H. apply andb_true_iff in H as [H1 H2].
  split; [assumption |]. apply negb_true_iff. assumption.
Qed.

(** ** A file that is in the way *)

(** X9: a request that cannot open its temporary path still deletes what
    is there.  When a file is at the temporary path, [open] raises on it
    and [os.remove] then works, the request fails with status 500 and
    the message of [open]; it has called nothing but [open] and
    [os.remove], and the file, which the request never wrote, is gone:
    [audio_path] is assigned before [open] is called. *)
Theorem failed_open_deletes_existing_file
    (w : world) (file : UploadFile) (align diarize : bool)
    (language : option string) (s : sys) (e : exn) (old : bytes) :
  checked w file diarize = true ->
  let path := temporary_path file in
  fs s !! resolve path = Some old ->
  os_open w {| fs := fs s; trace := trace s ++ [Open path] |} path = Some e ->
  os_remove w
    {| fs := fs s;
       trace := trace s
                ++ [Open path; Print ("Error processing file: " +:+ str e);
                    Remove path] |} path = None ->
  let s' := fst (transcribe w file align diarize language s) in
  snd (transcribe w file align diarize language s)
  = inl (HTTPException 500 ("Processing failed: " +:+ str e))
  /\ trace s'
     = (trace s
        ++ [Open path; Print ("Error processing file: " +:+ str e);
            Remove path; Print ("Cleaned up temporary file: " +:+ path)])%list
  /\ fs s' !! resolve path = None.
Proof.
  intros Hc path Hold Hopen Hrm s'.
  assert (Hrun :
           transcribe w file align diarize language s
           = ({| fs := delete (resolve path) (fs s);
                 trace := trace s
                          ++ [Open path;
                              Print ("Error processing file: " +:+ str e);
                              Remove path;
                              Print ("Cleaned up temporary file: " +:+ path)] |},
              inl (HTTPException 500 ("Processing failed: " +:+ str e)))).
  { clear s'. subst path.
    apply checked_true in Hc as [Hf Hd].
    rewrite transcribe_checked by assumption.
    unfold temporary_path in *.
    unfold transcribe_request, transcribe_try, transcribe_except, cleanup,
      transcription_stage.
    unfold_m. simpl. rewrite Hopen. simpl.
    destruct (filename file) as [[| a name] |]; try discriminate Hf.
    simpl. simpl in Hold. rewrite Hold. simpl.
    rewrite <- !app_assoc. simpl. simpl in Hrm. rewrite Hrm. simpl.
    rewrite Hold. simpl. rewrite <- !app_assoc. reflexivity. }
  subst s'. rewrite Hrun. cbn [fst snd fs trace].
  split_and!; [reflexivity | reflexivity | apply lookup_delete_eq].
Qed.

Lemma failed_open_deletes_existing_file_witness :
  snd (transcribe Edge.read_only Sample.talk true false None Edge.occupied)
  = inl (HTTPException 500
           ("Processing failed: " +:+ str (Edge.denied "/tmp/talk.wav")))
  /\ trace (fst (transcribe Edge.read_only Sample.talk true false None
                   Edge.occupied))
     = (trace Edge.occupied
        ++ [Open (temporary_path Sample.talk);
            Print ("Error processing file: " +:+
                   str (Edge.denied "/tmp/talk.wav"));
            Remove (temporary_path Sample.talk);
            Print ("Cleaned up temporary file: " +:+
                   temporary_path Sample.talk)])%list
  /\ fs (fst (transcribe Edge.read_only Sample.talk true false None
                Edge.occupied)) !! resolve (temporary_path Sample.talk)
     = None.
Proof.
  apply (failed_open_deletes_existing_file Edge.read_only Sample.talk true
           false None Edge.occupied (Edge.denied "/tmp/talk.wav")
           [Byte.x6f; Byte.x6c; Byte.x64]);
    reflexivity.
Defined.

(** ** Repeating a request *)

(** X10: the handler keeps nothing from one request to the next.  In a
    world whose calls are steady (the models answer from their arguments
    alone, [open] and [write] do not depend on what the store holds),
    handling the same request again, in the state the first handling
    left, gives the same answer. *)
Theorem repeated_request_same_response
    (w : world) (file : UploadFile) (align diarize : bool)
    (language : option string) (s : sys) :
  steady w ->
  snd (transcribe w file align diarize language
         (fst (transcribe w file align diarize language s)))
  = snd (transcribe w file align diarize language s).
Proof. intros Hw. apply transcribe_response_steady. exact Hw. Qed.

Lemma repeated_request_same_response_witness :
  snd (transcribe Sample.sticky Sample.talk true true None
         (fst (transcribe Sample.sticky Sample.talk true true None
                 Sample.empty_sys)))
  = snd (transcribe Sample.sticky Sample.talk true true None Sample.empty_sys).
Proof.
  apply (repeated_request_same_response Sample.sticky Sample.talk true true
           None Sample.empty_sys).
  constructor; reflexivity.
Defined.

(** ** Failures before and inside the first stage *)

Lemma emits_cleanup_no_model w :
  emits (fun ev => is_model_call ev = false) (cleanup w).
Proof.
  unfold cleanup, os_path_exists, remove, print. auto 30 with emits.
Qed.

Lemma upload_fails_guarded w file align diarize language s e :
  upload_fails w file e ->
  exists st evs,
    try_except (transcribe_try w file align diarize language) transcribe_except
      (State s new_frame)
    = (st, inl (HTTPException 500 ("Processing failed: " +:+ str e)))
    /\ trace (outside st) = (trace s ++ evs)%list
    /\ Forall (fun ev => is_model_call ev = false) evs.
Proof.
  unfold upload_fails, temporary_path.
  intros [H | [[H1 H2] | (H1 & data & H2 & H3)]];
    unfold transcribe_try, transcribe_except, transcription_stage; unfold_m;
    simpl; rewrite ?H, ?H1, ?H2; simpl; rewrite ?H3; simpl;
    rewrite <- ?app_assoc; simpl.
  all: eexists _, _; split_and!; [reflexivity | reflexivity |].
  all: repeat constructor.
Qed.

(** X11: when the upload cannot be saved, the request fails with status 500
    and the message of that error, and no call into whisperx or torch is
    made. *)
Theorem upload_failure_calls_no_model
    (w : world) (file : UploadFile) (align diarize : bool)
    (language : option string) (s : sys) (e : exn) :
  checked w file diarize = true ->
  upload_fails w file e ->
  snd (transcribe w file align diarize language s)
  = inl (HTTPException 500 ("Processing failed: " +:+ str e))
  /\ exists evs : list event,
       trace (fst (transcribe w file align diarize language s))
       = (trace s ++ evs)%list
       /\ Forall (fun ev => is_model_call ev = false) evs.
Proof.
  intros Hc Hu. apply checked_true in Hc as [Hf Hd].
  destruct (upload_fails_guarded w file align diarize language s e Hu)
    as (st & evs & Hg & Ht & HP).
  rewrite transcribe_checked by assumption. cbn [fst snd].
  split.
  - rewrite transcribe_request_outcome, Hg. reflexivity.
  - unfold transcribe_request, try_finally. rewrite Hg.
    destruct (cleanup w st) as [st' r'] eqn:Ec.
    apply cleanup_run in Ec as Ec'. destruct Ec' as [-> _].
    apply emits_cleanup_no_model in Ec as (evs' & Ht' & HP').
    cbn [fst]. exists (evs ++ evs')%list.
    rewrite Ht', Ht, app_assoc. split; [reflexivity |].
    apply Forall_app. auto.
Qed.

Lemma upload_failure_calls_no_model_witness :
  snd (transcribe Edge.full_disk Sample.talk true true None Sample.empty_sys)
  = inl (HTTPException 500
           ("Processing failed: " +:+
            str (PyErr "OSError" "[Errno 28] No space left on device")))
  /\ exists evs : list event,
       trace (fst (transcribe Edge.full_disk Sample.talk true true None
                     Sample.empty_sys))
       = (trace Sample.empty_sys ++ evs)%list
       /\ Forall (fun ev => is_model_call ev = false) evs.
Proof.
  apply (upload_failure_calls_no_model Edge.full_disk Sample.talk true true
           None Sample.empty_sys).
  - reflexivity.
  - right. right. split; [reflexivity |].
    exists Sample.payload. split; reflexivity.
Defined.

(** The comprehension stops at the first text that is not a string. *)
Lemma stripped_texts_fails pre seg post v :
  Forall (fun seg' => exists t, get seg' "text" (VStr "") = VStr t) pre ->
  get seg "text" (VStr "") = v ->
  (forall t, v <> VStr t) ->
  stripped_texts (pre ++ seg :: post)%list = inl (AttributeError v "strip").
Proof.
  intros Hpre Hv Hns. induction Hpre as [| seg' pre [t Ht] _ IH]; simpl.
  - rewrite Hv. destruct v; try reflexivity. exfalso. eapply Hns. reflexivity.
  - rewrite Ht, IH. reflexivity.
Qed.

(** X12: when the transcription supplies no text of its own and the text
    of one of its segments is not a string, the request fails with
    status 500, and the detail names the type of the first such text:
    that of the segment [seg], whose predecessors [pre] all have a string
    for text. *)
Theorem segment_text_must_be_a_string
    (w : world) (file : UploadFile) (align diarize : bool)
    (language : option string) (s : sys) (data : bytes) (audio : object)
    (res : ResultDict) (pre post : segment_list) (seg : dict) (v : value) :
  checked w file diarize = true ->
  (forall s0, os_open w s0 (temporary_path file) = None) ->
  read file = inr data ->
  (forall s0, os_write w s0 (temporary_path file) data = None) ->
  (forall s0, load_audio w s0 (temporary_path file) (Some data) = inr audio) ->
  (forall s0, model_transcribe w s0 audio BATCH_SIZE language = inr res) ->
  truthy (default "" (r_text res)) = false ->
  r_segments res = Some (pre ++ seg :: post)%list ->
  Forall (fun seg' => exists t, get seg' "text" (VStr "") = VStr t) pre ->
  get seg "text" (VStr "") = v ->
  (forall t, v <> VStr t) ->
  snd (transcribe w file align diarize language s)
  = inl (HTTPException 500
           ("Processing failed: '" +:+ type_name v
              +:+ "' object has no attribute 'strip'")).
Proof.
  intros Hc Ho Hr Hw Ha Hm Ht Hs Hpre Hv Hns.
  apply checked_true in Hc as [Hf Hd].
  pose proof (stripped_texts_fails pre seg post v Hpre Hv Hns) as Hst.
  rewrite transcribe_checked by assumption. cbn [snd].
  rewrite transcribe_request_outcome.
  unfold temporary_path in *.
  unfold transcribe_try, transcribe_except, transcription_stage. unfold_m.
  simpl. rewrite Ho. simpl. rewrite Hr. simpl. rewrite Hw. simpl.
  rewrite lookup_insert_eq, Ha. simpl. rewrite Hm. simpl.
  rewrite Ht, Hs. simpl. rewrite Hst. simpl. reflexivity.
Qed.

Lemma segment_text_must_be_a_string_witness :
  snd (transcribe (Edge.returning Edge.mute None) Sample.talk true false
         None Sample.empty_sys)
  = inl (HTTPException 500
           ("Processing failed: '" +:+ type_name VNone
              +:+ "' object has no attribute 'strip'")).
Proof.
  apply (segment_text_must_be_a_string (Edge.returning Edge.mute None)
           Sample.talk true false None Sample.empty_sys Sample.payload
           Sample.audio Edge.mute
           [Sample.seg 0 1 " Hello"] [Sample.seg 2 3 " again"]
           [("start", VFloat 1); ("text", VNone)] VNone);
    try reflexivity.
  - repeat constructor. eexists. reflexivity.
  - intros t H. discriminate H.
Defined.

(** ** Edges of the alignment stage *)

(** X13: when the alignment itself succeeds but releasing the GPU memory
    afterwards raises (whatever the state outside, the model loads, the
    [align] call returns and [torch.cuda.empty_cache()] raises), the
    response keeps the aligned segments and loses
    the word segments: [segments] was already replaced when the [except]
    of step 2 sets [word_segments] to the empty list. *)
Theorem failed_reclaim_drops_word_segments
    (w : world) (file : UploadFile) (language : option string) (s : sys)
    (st1 : state) (audio model_a metadata : object) (res aligned : ResultDict)
    (lang : string) (segs : segment_list) (e : exn) :
  truthy_opt (filename file) = true ->
  transcription_stage w file language (State s new_frame)
  = (st1, inr (audio, res, lang)) ->
  (forall s0, load_align_model w s0 lang (DEVICE w) = inr (model_a, metadata)) ->
  r_segments res = Some segs ->
  (forall s0, align w s0 segs model_a metadata audio (DEVICE w) = inr aligned) ->
  String.eqb (DEVICE w) "cuda" = true ->
  (forall s0, empty_cache w s0 = Some e) ->
  exists resp,
    snd (transcribe w file true false language s) = inr resp
    /\ segments resp = default segs (r_segments aligned)
    /\ word_segments resp = Some [].
Proof.
  intros Hf H1 Hl Hs Ha Hd He.
  rewrite transcribe_checked by done. cbn [snd].
  rewrite transcribe_request_outcome.
  apply transcription_stage_frame in H1 as H1'. destruct H1' as (_ & _ & Hfr).
  destruct st1 as [o1 fr1]. simpl in Hfr. subst fr1.
  unfold try_except at 1. unfold transcribe_try.
  erewrite bind_inr by exact H1. cbn iota beta.
  unfold alignment_stage, align_try, diarization_stage. unfold_m. simpl.
  rewrite Hl. simpl. rewrite Hs. simpl. rewrite Ha. simpl.
  rewrite Hd. simpl. rewrite He. simpl.
  eexists. split_and!; reflexivity.
Qed.

Lemma failed_reclaim_drops_word_segments_witness :
  exists resp,
    snd (transcribe (Edge.returning Sample.raw (Some Edge.cuda_lost))
           Sample.talk true false None Sample.empty_sys) = inr resp
    /\ segments resp = default Sample.raw_segments (r_segments Sample.aligned)
    /\ word_segments resp = Some [].
Proof.
  apply (failed_reclaim_drops_word_segments
           (Edge.returning Sample.raw (Some Edge.cuda_lost)) Sample.talk None
           Sample.empty_sys
           (fst (transcription_stage
                   (Edge.returning Sample.raw (Some Edge.cuda_lost))
                   Sample.talk None (State Sample.empty_sys new_frame)))
           Sample.audio Sample.model_a Sample.metadata Sample.raw
           Sample.aligned "en" Sample.raw_segments Edge.cuda_lost);
    reflexivity.
Defined.

(** X14: when the transcription has no [segments] entry, a request with
    alignment and without diarization still succeeds: the text is the
    transcription's own or empty, and [segments] and [word_segments] are
    both the empty list. *)
Theorem missing_segments_degrade
    (w : world) (file : UploadFile) (language : option string) (s : sys)
    (st1 : state) (audio : object) (res : ResultDict) (lang : string) :
  truthy_opt (filename file) = true ->
  transcription_stage w file language (State s new_frame)
  = (st1, inr (audio, res, lang)) ->
  r_segments res = None ->
  snd (transcribe w file true false language s)
  = inr (JSONResponse (default "" (r_text res)) [] lang (Some []) None).
Proof.
  intros Hf H1 Hs.
  rewrite transcribe_checked by done. cbn [snd].
  rewrite transcribe_request_outcome.
  apply transcription_stage_frame in H1 as H1'. destruct H1' as (_ & _ & Hfr).
  destruct st1 as [o1 fr1]. simpl in Hfr. subst fr1.
  unfold try_except at 1. unfold transcribe_try.
  erewrite bind_inr by exact H1. cbn iota beta.
  assert (Ht : spec_text res = default "" (r_text res)).
  { unfold spec_text. rewrite Hs. simpl.
    destruct (truthy (default "" (r_text res))) eqn:E; [reflexivity |].
    apply truthy_false in E. rewrite E. reflexivity. }
  unfold alignment_stage, align_try, diarization_stage. unfold_m. simpl.
  rewrite Hs, Ht.
  destruct (load_align_model w _ lang (DEVICE w)) as [e | [m md]]; reflexivity.
Qed.

Lemma missing_segments_degrade_witness :
  snd (transcribe (Edge.returning Edge.bare None) Sample.talk true false None
         Sample.empty_sys)
  = inr (JSONResponse (default "" (r_text Edge.bare)) [] "unknown" (Some [])
           None).
Proof.
  apply (missing_segments_degrade (Edge.returning Edge.bare None) Sample.talk
           None Sample.empty_sys
           (fst (transcription_stage (Edge.returning Edge.bare None)
                   Sample.talk None (State Sample.empty_sys new_frame)))
           Sample.audio Edge.bare "unknown").
  - reflexivity.
  - vm_compute. reflexivity.
  - reflexivity.
Defined.

(** ** GET /health against the check of POST /transcribe/ *)

(** X15: [/health] reports diarization as available while a request with
    [diarize] is turned down for lack of a credential exactly when the
    environment sets [HF_TOKEN] to the empty string: the report tests
    [HF_TOKEN is not None], the check [not HF_TOKEN]. *)
Theorem health_overstates_diarization
    (p : process) (w : world) (cuda_now : bool) (file : UploadFile)
    (align : bool) (language : option string) (s : sys) :
  truthy_opt (filename file) = true ->
  (diarization_available (health (boot p w) cuda_now) = true
   /\ snd (transcribe (boot p w) file align true language s)
      = inl (HTTPException 400
               "Diarization requires HF_TOKEN environment variable to be set"))
  <-> environ p !! "HF_TOKEN" = Some "".
Proof.
  intros Hf. split.
  - intros [Hh Ht]. unfold health in Hh. simpl in Hh.
    destruct (environ p !! "HF_TOKEN") as [[| a t] |] eqn:E;
      [reflexivity | | discriminate].
    exfalso.
    rewrite transcribe_checked in Ht;
      [| assumption | simpl; rewrite E; reflexivity].
    cbn [snd] in Ht.
    destruct (transcribe_request (boot p w) file align true language
                (State s new_frame)) as [st r] eqn:Er.
    cbn [snd] in Ht. subst r.
    apply transcribe_request_error in Er as [e' He']. discriminate He'.
  - intros E. unfold health, transcribe. simpl. rewrite E, Hf. simpl.
    split; reflexivity.
Qed.

Lemma health_overstates_diarization_witness :
  (diarization_available (health (boot Edge.blank_token Sample.fine) false)
   = true
   /\ snd (transcribe (boot Edge.blank_token Sample.fine) Sample.talk true true
             None Sample.empty_sys)
      = inl (HTTPException 400
               "Diarization requires HF_TOKEN environment variable to be set"))
  <-> environ Edge.blank_token !! "HF_TOKEN" = Some "".
Proof.
  apply (health_overstates_diarization Edge.blank_token Sample.fine false
           Sample.talk true None Sample.empty_sys).
  reflexivity.
Defined.

(** ** More on POST /transcribe/batch/ *)

(** X16: a batch over two lists of files, one after the other, is the
    batch over the first list followed by the batch over the second from
    the state the first has left: the results are those of the first
    list followed by those of the second. *)
Theorem batch_of_concatenation
    (w : world) (files1 files2 : list UploadFile) (align diarize : bool)
    (language : option string) (s : sys) :
  exists s1 results1 s2 results2,
    transcribe_batch w files1 align diarize language s = (s1, inr results1)
    /\ transcribe_batch w files2 align diarize language s1 = (s2, inr results2)
    /\ transcribe_batch w (files1 ++ files2) align diarize language s
       = (s2, inr (results1 ++ results2)%list).
Proof. apply transcribe_batch_app. Qed.

Lemma str_400 detail : str (HTTPException 400 detail) = "400: " +:+ detail.
Proof. reflexivity. Qed.

Lemma str_500 detail : str (HTTPException 500 detail) = "500: " +:+ detail.
Proof. reflexivity. Qed.

Lemma entry_error_format w align diarize language s0 file :
  error_message_format (entry w align diarize language s0 file).
Proof.
  unfold entry.
  destruct (transcribe w file align diarize language s0) as [s' [e | resp]] eqn:E;
    simpl; [| exact I].
  apply transcribe_error_shape in E
    as [[_ [-> | ->]] | [_ [e' ->]]].
  - left. eexists. apply str_400.
  - left. eexists. apply str_400.
  - right. eexists. rewrite str_500. reflexivity.
Qed.

(** X17: the message of every [Error] entry of a batch is the status of the
    exception, a colon and its detail: "400: " and the detail of a check,
    or "500: Processing failed: " and the message of what went wrong. *)
Theorem batch_error_messages
    (w : world) (files : list UploadFile) (align diarize : bool)
    (language : option string) (s : sys) :
  exists results,
    snd (transcribe_batch w files align diarize language s) = inr results
    /\ Forall error_message_format results.
Proof.
  rewrite transcribe_batch_loop. eexists. split; [reflexivity |].
  revert s. induction files as [| file files IH]; intros s.
  - constructor.
  - rewrite batch_loop_cons.
    constructor; [apply entry_error_format | apply IH].
Qed.

Lemma batch_loop_rejected w files align language results s :
  truthy_opt (HF_TOKEN w) = false ->
  batch_loop w files align true language results s
  = (s, (results ++
         map (fun file =>
                Error (filename file)
                  (if truthy_opt (filename file)
                   then "400: Diarization requires HF_TOKEN environment variable to be set"
                   else "400: No file provided")) files)%list).
Proof.
  intros Ht. revert results.
  induction files as [| file files IH]; intros results; simpl.
  - rewrite app_nil_r. reflexivity.
  - unfold transcribe. rewrite Ht.
    destruct (truthy_opt (filename file)); simpl;
      rewrite IH, <- app_assoc; reflexivity.
Qed.

(** X18: a batch with [diarize] and no credential is not refused as a whole:
    it returns normally, with one [Error] entry per file carrying the 400
    of the check that turned the file down, and the state outside is
    untouched. *)
Theorem batch_without_token
    (w : world) (files : list UploadFile) (align : bool)
    (language : option string) (s : sys) :
  truthy_opt (HF_TOKEN w) = false ->
  transcribe_batch w files align true language s
  = (s, inr (map (fun file =>
                    Error (filename file)
                      (if truthy_opt (filename file)
                       then "400: Diarization requires HF_TOKEN environment variable to be set"
                       else "400: No file provided")) files)).
Proof.
  intros Ht. unfold transcribe_batch.
  rewrite batch_loop_rejected by assumption. reflexivity.
Qed.

Lemma batch_without_token_witness :
  transcribe_batch Sample.anonymous [Sample.talk; Sample.nameless] true true
    None Sample.empty_sys
  = (Sample.empty_sys,
     inr (map (fun file =>
                 Error (filename file)
                   (if truthy_opt (filename file)
                    then "400: Diarization requires HF_TOKEN environment variable to be set"
                    else "400: No file provided"))
            [Sample.talk; Sample.nameless])).
Proof.
  apply (batch_without_token Sample.anonymous [Sample.talk; Sample.nameless]
           true None Sample.empty_sys).
  reflexivity.
Defined.

(** X19: in a world whose calls are steady, the entries of a batch are
    those each file gets from a request of its own, from whatever state:
    what one file does, failing or not, then leaves the entries of the
    others as they are. *)
Theorem batch_entries_in_steady_world
    (w : world) (files : list UploadFile) (align diarize : bool)
    (language : option string) (s s0 : sys) :
  steady w ->
  snd (transcribe_batch w files align diarize language s)
  = inr (map (entry w align diarize language s0) files).
Proof.
  intros Hw. rewrite transcribe_batch_loop. cbn [snd]. f_equal.
  revert s. induction files as [| file files IH]; intros s.
  - reflexivity.
  - rewrite batch_loop_cons, IH. simpl. f_equal.
    unfold entry.
    rewrite (transcribe_response_steady w Hw file align diarize language s s0).
    reflexivity.
Qed.

Lemma batch_entries_in_steady_world_witness :
  snd (transcribe_batch Sample.fine
         [Sample.talk; Sample.nameless; Sample.truncated; Sample.talk]
         true false None Edge.occupied)
  = inr (map (entry Sample.fine true false None Sample.empty_sys)
           [Sample.talk; Sample.nameless; Sample.truncated; Sample.talk]).
Proof.
  apply (batch_entries_in_steady_world Sample.fine
           [Sample.talk; Sample.nameless; Sample.truncated; Sample.talk]
           true false None Edge.occupied Sample.empty_sys).
  constructor; reflexivity.
Defined.

(** ** Alignment on a CPU *)

(** X20: unless the device is "cuda", an alignment that raises has not bound
    [result_aligned]: nothing after the [align] call can raise, so the
    response then keeps the unaligned segments. *)
Theorem alignment_failure_without_cuda
    (w : world) (audio : object) (res : ResultDict) (lang : string)
    (o : sys) (p : option string) (rd : Response) (st2 : state) (e : exn) :
  String.eqb (DEVICE w) "cuda" = false ->
  align_try w audio res lang (State o (Frame p (Some res) (Some rd) None None))
  = (st2, inl e) ->
  locals st2 = Frame p (Some res) (Some rd) None None.
Proof.
  unfold align_try. unfold_m. intros Hd H. rewrite Hd in H.
  run; reflexivity.
Qed.

Lemma alignment_failure_without_cuda_witness :
  locals (fst (align_try (boot Edge.blank_token Sample.unaligned) Sample.audio
                 Sample.raw "en"
                 (State Sample.empty_sys
                    (Frame None (Some Sample.raw) (Some Sample.degraded_response)
                       None None))))
  = Frame None (Some Sample.raw) (Some Sample.degraded_response) None None.
Proof.
  apply (alignment_failure_without_cuda (boot Edge.blank_token Sample.unaligned)
           Sample.audio Sample.raw "en" Sample.empty_sys None
           Sample.degraded_response
           (fst (align_try (boot Edge.blank_token Sample.unaligned) Sample.audio
                   Sample.raw "en"
                   (State Sample.empty_sys
                      (Frame None (Some Sample.raw)
                         (Some Sample.degraded_response) None None))))
           Sample.no_align_model);
    reflexivity.
Defined.

(** ** The arguments of [test_whisperx_direct.py] *)

Lemma index_first x pre post :
  x ∉ pre -> Direct.index x (pre ++ x :: post) = Some (length pre).
Proof.
  induction pre as [| y pre IH]; intros H; simpl.
  - rewrite String.eqb_refl. reflexivity.
  - apply not_elem_of_cons in H as [Hne Hin].
    destruct (String.eqb_spec y x) as [-> | _]; [contradiction |].
    rewrite IH by exact Hin. reflexivity.
Qed.

(** X21: when the first [--hf-token] of the command line is its last
    argument ([pre] holds no [--hf-token]), the script dies of an
    [IndexError] before it looks at the audio file, whatever the
    environment holds.  An earlier [--hf-token] would be the one that
    counts: [index] gives the first. *)
Theorem token_flag_without_value_crashes
    (p : process) (pre : list string) (path_exists : string -> bool) :
  pre <> [] ->
  "--hf-token" ∉ pre ->
  snd (Direct.prelude p (pre ++ ["--hf-token"]) path_exists)
  = Direct.Crash (PyErr "IndexError" "list index out of range").
Proof.
  intros Hne Hin. unfold Direct.prelude.
  rewrite index_first by exact Hin.
  replace ((pre ++ ["--hf-token"])%list !! S (length pre))
    with (@None string).
  2: { symmetry. apply lookup_ge_None. rewrite length_app. simpl. lia. }
  destruct pre as [| prog [| audio_file rest]]; [contradiction | |];
    reflexivity.
Qed.

Lemma token_flag_without_value_crashes_witness :
  snd (Direct.prelude Edge.blank_token
         (["test_whisperx_direct.py"; "talk.wav"] ++ ["--hf-token"])
         (fun _ => true))
  = Direct.Crash (PyErr "IndexError" "list index out of range").
Proof.
  apply (token_flag_without_value_crashes Edge.blank_token
           ["test_whisperx_direct.py"; "talk.wav"] (fun _ => true)).
  - discriminate.
  - intros H. repeat (apply elem_of_cons in H as [H | H]; [discriminate H |]).
    inversion H.
Defined.

(** X22: a token given after the first [--hf-token] replaces the one of the
    environment: when the audio file exists the script goes on with it
    and with the token of the command line. *)
Theorem token_flag_overrides_environment
    (p : process) (pre post : list string) (token audio_file : string)
    (path_exists : string -> bool) :
  "--hf-token" ∉ pre ->
  (pre ++ "--hf-token" :: token :: post)%list !! 1%nat = Some audio_file ->
  path_exists audio_file = true ->
  snd (Direct.prelude p (pre ++ "--hf-token" :: token :: post) path_exists)
  = Direct.Ready audio_file (Some token).
Proof.
  intros Hin Haudio Hex. unfold Direct.prelude.
  rewrite index_first by exact Hin.
  replace ((pre ++ "--hf-token" :: token :: post)%list !! S (length pre))
    with (Some token).
  2: { symmetry. rewrite lookup_app_r by lia.
       replace (S (length pre) - length pre)%nat with 1%nat by lia.
       reflexivity. }
  destruct (pre ++ "--hf-token" :: token :: post)%list
    as [| prog [| a rest]] eqn:E;
    try discriminate Haudio.
  simpl in Haudio. inversion Haudio; subst a.
  rewrite Hex. destruct (truthy_opt (Some token)); reflexivity.
Qed.

Lemma token_flag_overrides_environment_witness :
  snd (Direct.prelude Edge.blank_token
         (["test_whisperx_direct.py"; "talk.wav"]
            ++ "--hf-token" :: "hf_cli" :: [])
         (fun _ => true))
  = Direct.Ready "talk.wav" (Some "hf_cli").
Proof.
  apply (token_flag_overrides_environment Edge.blank_token
           ["test_whisperx_direct.py"; "talk.wav"] [] "hf_cli" "talk.wav"
           (fun _ => true)).
  - intros H. repeat (apply elem_of_cons in H as [H | H]; [discriminate H |]).
    inversion H.
  - reflexivity.
  - reflexivity.
Defined.
